(** * A shallow embedding of the tensor data model and memory-layout engine

    The repository holds two iterations of the same tensor class:

    - [src/tensor.h], [src/tensor.cpp]: the strided tensor ([int32_t]
      dimensions, an explicit [Stride], seven dtypes, one validating
      constructor).  It is embedded in [Module Core].
    - [src/main_folder/tensor.h], [src/main_folder/tensor.cpp]: the lighter
      tensor ([size_t] dimensions, shape inference from nested vectors, three
      constructors, the [zeros] and [ones] factories).  It is embedded in
      [Module MainFolder].

    Integers are modelled in [Z] with the width of their C++ type written out:
    [size_t] arithmetic wraps modulo [2^64]; overflow of [int32_t] arithmetic
    is undefined behaviour and is reported as such, and a property of a
    constructed tensor that needs the product of the dimensions to fit in
    [int32_t] says so in a hypothesis of its own.  Raw buffers are byte
    arrays in a heap indexed by locations; a [std::shared_ptr] is a location
    together with the use count stored in the heap block. *)

From Stdlib Require Import ZArith List Lia Bool String.
From stdpp Require Import base option list gmap.

Local Open Scope string_scope.
Local Open Scope Z_scope.
Local Open Scope list_scope.

(** ** Outcomes of a C++ computation *)

(** The exceptions the sources throw, with their [what()] text. *)
Inductive exn : Type :=
| invalid_argument (what : string)
| runtime_error (what : string)
| bad_alloc.

(** A computation returns, throws, or leaves the defined behaviour of C++. *)
Inductive outcome (A : Type) : Type :=
| Ok (a : A)
| Throw (e : exn)
| Undefined (why : string).

Arguments Ok {A} a.
Arguments Throw {A} e.
Arguments Undefined {A} why.

#[global] Instance outcome_ret : MRet outcome := fun _ a => Ok a.
#[global] Instance outcome_bind : MBind outcome := fun _ _ f m =>
  match m with
  | Ok a => f a
  | Throw e => Throw e
  | Undefined why => Undefined why
  end.

Definition is_ok {A} (m : outcome A) : bool :=
  match m with Ok _ => true | _ => false end.

(** The error kind of the specification's taxonomy that a C++ exception
    belongs to: [std::invalid_argument] is the InvalidShape/InvalidArgument
    kind, [std::runtime_error] is raised by the allocator only. *)
Definition throws_invalid_argument {A} (m : outcome A) : bool :=
  match m with Throw (invalid_argument _) => true | _ => false end.

Definition throws_runtime_error {A} (m : outcome A) : bool :=
  match m with Throw (runtime_error _) => true | _ => false end.

(** ** Machine integers *)

(** [size_t] is 64 bits wide (LP64); unsigned arithmetic wraps. *)
Definition size_modulus : Z := 2 ^ 64.
Definition size_wrap (z : Z) : Z := z mod size_modulus.
Definition size_mul (a b : Z) : Z := size_wrap (a * b).
Definition is_size_t (z : Z) : Prop := 0 <= z < size_modulus.

Arguments size_wrap : simpl never.
Arguments size_mul : simpl never.

(** [int32_t] (and [int]): an operation whose mathematical result leaves the
    range has undefined behaviour, and the sources never check for it.  [Ok]
    is the result of a computation that stays within defined behaviour; what
    a build that lets the product wrap goes on to compute is not described. *)
Definition int32_min : Z := - 2 ^ 31.
Definition int32_max : Z := 2 ^ 31 - 1.
Definition in_int32 (z : Z) : bool := (int32_min <=? z) && (z <=? int32_max).
Definition int32_mul (a b : Z) : outcome Z :=
  if in_int32 (a * b) then Ok (a * b)
  else Undefined "signed integer overflow".

(** The mathematical product of a sequence of dimensions. *)
Fixpoint prodZ (l : list Z) : Z :=
  match l with
  | [] => 1
  | d :: ds => d * prodZ ds
  end.

(** [std::accumulate(first, last, size_t(1), std::multiplies<size_t>())]:
    a left fold, every step a [size_t] multiplication of the accumulator by
    the element converted to [size_t] (the identity on a [size_t] element,
    reduction modulo [2^64] on an [int32_t] one). *)
Definition accumulate_size (l : list Z) (init : Z) : Z :=
  fold_left (fun acc d => size_mul acc (size_wrap d)) l init.

(** Row-major strides as a specification: entry [i] is the product of the
    dimensions after [i]. *)
Fixpoint suffix_products (dims : list Z) : list Z :=
  match dims with
  | [] => []
  | _ :: ds => prodZ ds :: suffix_products ds
  end.

(** ** Raw memory *)

(** A byte of a buffer: [Some b] with [0 <= b < 256], or [None] while the
    byte is still indeterminate ([new uint8_t[n]] does not initialise). *)
Definition cell : Type := option Z.

(** The control block and the array behind a [std::shared_ptr<uint8_t>]. *)
Record block : Type := Block {
  bytes : list cell;
  use_count : nat
}.

(** The free store: live blocks by location, and the bytes still available
    ([operator new] throws [std::bad_alloc] beyond them). *)
Record heap : Type := Heap {
  blocks : gmap positive block;
  avail : Z
}.

Definition empty_heap (capacity : Z) : heap :=
  {| blocks := ∅; avail := capacity |}.

(** [std::shared_ptr<uint8_t>(new uint8_t[n], std::default_delete<uint8_t[]>())] *)
Definition new_shared (n : Z) (h : heap) : outcome (positive * heap) :=
  if avail h <? n then Throw bad_alloc
  else
    let l := fresh (dom (blocks h)) in
    Ok (l, {| blocks := <[l := Block (replicate (Z.to_nat n) None) 1]> (blocks h);
              avail := avail h - n |}).

(** Copying a [shared_ptr]: the same location, one more owner. *)
Definition share (p : option positive) (h : heap) : heap :=
  match p with
  | None => h
  | Some l =>
      {| blocks := alter (fun b => Block (bytes b) (S (use_count b))) l (blocks h);
         avail := avail h |}
  end.

(** Destroying a [shared_ptr]: one owner less; the last one frees the array. *)
Definition release (p : option positive) (h : heap) : heap :=
  match p with
  | None => h
  | Some l =>
      match blocks h !! l with
      | None => h
      | Some b =>
          match use_count b with
          | S (S n) =>
              {| blocks := <[l := Block (bytes b) (S n)]> (blocks h);
                 avail := avail h |}
          | _ =>
              {| blocks := delete l (blocks h);
                 avail := avail h + Z.of_nat (length (bytes b)) |}
          end
      end
  end.

(** *** Typed views of the buffer *)

(** The element types [T] that [data<T>()] and the constructors are used
    with.  A value of type [T] is represented by its object representation,
    read as a little-endian number: an [int] [n] by [n mod 2^32], a [float]
    by its binary32 bit pattern. *)
Inductive ctype : Type := c_float | c_int | c_double.

Definition sizeof (T : ctype) : Z :=
  match T with
  | c_float => 4
  | c_int => 4
  | c_double => 8
  end.

(** [sizeof(std::vector<U>)] on the LP64 platforms (three pointers). *)
Definition sizeof_vector : Z := 24.

Fixpoint encode_le (n : nat) (v : Z) : list Z :=
  match n with
  | O => []
  | S m => (v mod 256) :: encode_le m (v / 256)
  end.

Fixpoint decode_le (bs : list Z) : Z :=
  match bs with
  | [] => 0
  | b :: rest => b + 256 * decode_le rest
  end.

Definition object_bytes (T : ctype) (v : Z) : list Z :=
  encode_le (Z.to_nat (sizeof T)) v.

(** The bytes spanned by a [std::vector<T>]'s array. *)
Definition vector_bytes (T : ctype) (vec : list Z) : list Z :=
  concat (map (object_bytes T) vec).

(** All cells initialised? *)
Fixpoint defined_bytes (cs : list cell) : option (list Z) :=
  match cs with
  | [] => Some []
  | c :: rest =>
      match c, defined_bytes rest with
      | Some b, Some bs => Some (b :: bs)
      | _, _ => None
      end
  end.

(** [data<T>()[k]] as an rvalue. *)
Definition load (T : ctype) (h : heap) (p : option positive) (k : nat)
  : outcome Z :=
  match p with
  | None => Undefined "null pointer dereference"
  | Some l =>
      match blocks h !! l with
      | None => Undefined "dangling pointer"
      | Some b =>
          let sz := Z.to_nat (sizeof T) in
          if (length (bytes b) <? (k + 1) * sz)%nat
          then Undefined "read past the end of the buffer"
          else
            match defined_bytes (take sz (drop (k * sz) (bytes b))) with
            | Some bs => Ok (decode_le bs)
            | None => Undefined "read of an indeterminate value"
            end
      end
  end.

(** [data<T>()[k] = v]. *)
Definition store (T : ctype) (h : heap) (p : option positive) (k : nat) (v : Z)
  : outcome heap :=
  match p with
  | None => Undefined "null pointer dereference"
  | Some l =>
      match blocks h !! l with
      | None => Undefined "dangling pointer"
      | Some b =>
          let sz := Z.to_nat (sizeof T) in
          if (length (bytes b) <? (k + 1) * sz)%nat
          then Undefined "write past the end of the buffer"
          else
            let bs := take (k * sz) (bytes b)
                      ++ (Some <$> object_bytes T v)
                      ++ drop ((k + 1) * sz) (bytes b) in
            Ok {| blocks := <[l := Block bs (use_count b)]> (blocks h);
                  avail := avail h |}
      end
  end.

(** [std::fill(ptr + k, ptr + k + count, v)] with [ptr = data<T>()], for a
    range of [count] elements. *)
Fixpoint fill (T : ctype) (p : option positive) (k count : nat) (v : Z)
  (h : heap) : outcome heap :=
  match count with
  | O => Ok h
  | S c => h' ← store T h p k v; fill T p (S k) c v h'
  end.

(** The number of elements in the pointer range [[ptr, ptr + n)] of a [T*]:
    [ptr + n] is the address [ptr + n * sizeof(T)] in the 64-bit address
    arithmetic, and [std::fill(first, last, v)] steps from [first] until it
    meets [last]. *)
Definition range_length (T : ctype) (n : Z) : Z :=
  size_mul n (sizeof T) / sizeof T.

Arguments range_length : simpl never.

(** [std::memcpy(data_.get(), src, n)] where [src] points to an array that
    spans the bytes [src_bytes]. *)
Definition memcpy (h : heap) (p : option positive) (src_bytes : list Z) (n : Z)
  : outcome heap :=
  match p with
  | None => Undefined "null pointer dereference"
  | Some l =>
      match blocks h !! l with
      | None => Undefined "dangling pointer"
      | Some b =>
          if Z.of_nat (length src_bytes) <? n
          then Undefined "memcpy reads past the end of the source"
          else if Z.of_nat (length (bytes b)) <? n
          then Undefined "memcpy writes past the end of the buffer"
          else
            let bs := (Some <$> take (Z.to_nat n) src_bytes)
                      ++ drop (Z.to_nat n) (bytes b) in
            Ok {| blocks := <[l := Block bs (use_count b)]> (blocks h);
                  avail := avail h |}
      end
  end.

(** * The strided tensor: [src/tensor.h], [src/tensor.cpp] *)

Module Core.

(** [enum class Dtype], by underlying value: an object of the type can hold
    any [int], and [dtype_size] has a [default:] branch for the others. *)
Definition Dtype : Type := Z.
Definition Int16 : Dtype := 0.
Definition Int32 : Dtype := 1.
Definition Int64 : Dtype := 2.
Definition Bfloat16 : Dtype := 3.
Definition Float16 : Dtype := 4.
Definition Float32 : Dtype := 5.
Definition Float64 : Dtype := 6.

Definition Dtype_enumerators : list Dtype :=
  [Int16; Int32; Int64; Bfloat16; Float16; Float32; Float64].

Definition dtype_size (dtype : Dtype) : outcome Z :=
  if dtype =? Int16 then Ok 2
  else if dtype =? Int32 then Ok 4
  else if dtype =? Int64 then Ok 8
  else if dtype =? Bfloat16 then Ok 2
  else if dtype =? Float16 then Ok 2
  else if dtype =? Float32 then Ok 4
  else if dtype =? Float64 then Ok 8
  else Throw (invalid_argument "Unsupported Dtype").

(** [enum class DeviceType], by underlying value. *)
Definition DeviceType : Type := Z.
Definition CPU : DeviceType := 0.
Definition CUDA : DeviceType := 1.

Record Device : Type := mkDevice {
  type : DeviceType;
  index : Z
}.

(** [Device(DeviceType type_ = DeviceType::CPU, int index_ = 0)] *)
Definition Device_default : Device := mkDevice CPU 0.

Record Shape : Type := mkShape { dims : list Z }.
Record Stride : Type := mkStride { strides : list Z }.

Record Tensor : Type := mkTensor {
  shape_ : Shape;
  stride_ : Stride;
  dtype_ : Dtype;
  device_ : Device;
  requires_grad_ : bool;
  is_owner_ : bool;
  data_ : option positive
}.

(** Metadata accessors. *)
Definition shape (t : Tensor) : list Z := dims (shape_ t).
Definition stride (t : Tensor) : list Z := strides (stride_ t).
Definition dtype (t : Tensor) : Dtype := dtype_ t.
Definition device (t : Tensor) : Device := device_ t.
Definition requires_grad (t : Tensor) : bool := requires_grad_ t.
Definition is_owner (t : Tensor) : bool := is_owner_ t.

(** [data<T>()]: the buffer's address, to be used with [load] and [store]. *)
Definition data (t : Tensor) : option positive := data_ t.

(** [size_t Tensor::numel() const] *)
Definition numel (t : Tensor) : Z :=
  match dims (shape_ t) with
  | [] => 0
  | _ :: _ => accumulate_size (dims (shape_ t)) 1
  end.

(** [size_t nbytes() const { return numel() * dtype_size(dtype_); }] *)
Definition nbytes (t : Tensor) : outcome Z :=
  sz ← dtype_size (dtype_ t); Ok (size_mul (numel t) sz).

(** The loop of [compute_strides]; [k] is [i + 1], so the loop has ended
    when [k] is [0].  [stride_val] is an [int32_t]. *)
Fixpoint strides_loop (k : nat) (ds sts : list Z) (stride_val : Z)
  : outcome (list Z) :=
  match k with
  | O => Ok sts
  | S i =>
      match ds !! i with
      | None => Undefined "index out of range"
      | Some d =>
          stride_val' ← int32_mul stride_val d;
          strides_loop i ds (<[i := stride_val]> sts) stride_val'
      end
  end.

Definition set_stride (t : Tensor) (s : list Z) : Tensor :=
  mkTensor (shape_ t) (mkStride s) (dtype_ t) (device_ t)
           (requires_grad_ t) (is_owner_ t) (data_ t).

(** [void Tensor::compute_strides()] *)
Definition compute_strides (t : Tensor) : outcome Tensor :=
  match dims (shape_ t) with
  | [] => Ok (set_stride t [])
  | _ :: _ =>
      let n := length (dims (shape_ t)) in
      s ← strides_loop n (dims (shape_ t)) (resize n 0 (strides (stride_ t))) 1;
      Ok (set_stride t s)
  end.

(** [void Tensor::allocate_memory()] *)
Definition allocate_memory (t : Tensor) (h : heap) : outcome (Tensor * heap) :=
  total_bytes ← nbytes t;
  if total_bytes =? 0
  then Throw (runtime_error "Cannot allocate memory for empty tensor.")
  else if type (device_ t) =? CPU then
    '(l, h') ← new_shared total_bytes h;
    Ok (mkTensor (shape_ t) (stride_ t) (dtype_ t) (device_ t)
                 (requires_grad_ t) true (Some l), h')
  else if type (device_ t) =? CUDA
  then Throw (runtime_error "CUDA device allocation not implemented yet.")
  else Throw (runtime_error "Unsupported device type for allocation.").

(** The range-for of the constructor that validates the dimensions. *)
Fixpoint validate_dims (ds : list Z) : outcome unit :=
  match ds with
  | [] => Ok tt
  | dim :: rest =>
      if dim <=? 0
      then Throw (invalid_argument "Tensor dimensions must be positive.")
      else validate_dims rest
  end.

(** [Tensor::Tensor(const Shape&, Dtype, const Device&, bool)] *)
Definition Tensor_new (shape : Shape) (dtype : Dtype) (device : Device)
  (requires_grad : bool) (h : heap) : outcome (Tensor * heap) :=
  let t := mkTensor shape (mkStride []) dtype device requires_grad false None in
  match dims (shape_ t) with
  | [] => Throw (invalid_argument "Tensor shape cannot be empty.")
  | _ :: _ =>
      _ ← validate_dims (dims (shape_ t));
      t1 ← compute_strides t;
      allocate_memory t1 h
  end.

(** [Tensor() = default]: the members with an initialiser get it, the
    vectors and the pointer are empty, [device_] is [Device()].  [dtype_] has
    no initialiser: default-initialisation ([Tensor t;]) leaves it
    indeterminate, so whatever the storage held is a parameter here;
    value-initialisation ([Tensor()], [Tensor{}]) zeroes it first. *)
Definition Tensor_default (indeterminate_dtype : Dtype) : Tensor :=
  mkTensor (mkShape []) (mkStride []) indeterminate_dtype Device_default
           false false None.

Definition Tensor_value_initialized : Tensor := Tensor_default 0.

(** [Tensor(const Tensor& other) = default]: member-wise copy; copying the
    [shared_ptr] member adds an owner to the same block. *)
Definition Tensor_copy (other : Tensor) (h : heap) : Tensor * heap :=
  (other, share (data_ other) h).

(** The implicit destructor. *)
Definition Tensor_destroy (t : Tensor) (h : heap) : heap :=
  release (data_ t) h.

End Core.

(** * The lighter tensor: [src/main_folder/tensor.h], [src/main_folder/tensor.cpp] *)

Module MainFolder.

Definition DeviceType : Type := Z.
Definition CPU : DeviceType := 0.
Definition CUDA : DeviceType := 1.

Record Device : Type := mkDevice { type : DeviceType }.

Definition Dtype : Type := Z.
Definition Float32 : Dtype := 0.
Definition Int32 : Dtype := 1.

(** [dims] is a [std::vector<size_t>]. *)
Record Shape : Type := mkShape { dims : list Z }.

Definition wf_shape (s : Shape) : Prop := Forall is_size_t (dims s).

(** A [std::vector] nested [n] levels deep around a scalar; a scalar is
    represented as in [load] and [store]. *)
Fixpoint nvec (n : nat) : Type :=
  match n with
  | O => Z
  | S m => list (nvec m)
  end.

(** [infer_shape]: the scalar overload and the [std::vector] overload. *)
Fixpoint infer_shape (n : nat) : nvec n -> Shape :=
  match n with
  | O => fun _ => mkShape []
  | S m => fun vec =>
      match vec with
      | [] => mkShape [0]
      | v0 :: _ =>
          let s := infer_shape m v0 in
          mkShape ([Z.of_nat (length vec)] ++ dims s)
      end
  end.

(** [flatten_recursive] and its wrapper [flatten]. *)
Fixpoint flatten_recursive (n : nat) : nvec n -> list Z -> list Z :=
  match n with
  | O => fun value out => out ++ [value]
  | S m => fun value out =>
      fold_left (fun acc v => flatten_recursive m v acc) value out
  end.

Definition flatten (n : nat) (vec : nvec n) : list Z :=
  flatten_recursive n vec [].

Record Tensor : Type := mkTensor {
  dtype_ : Dtype;
  device_ : Device;
  strides_ : list Z;
  is_owner_ : bool;
  shape_ : Shape;
  data_ : option positive
}.

(** [size_t compute_numel() const] *)
Definition compute_numel (t : Tensor) : Z :=
  match dims (shape_ t) with
  | [] => 0
  | _ :: _ => accumulate_size (dims (shape_ t)) 1
  end.

(** The loop of [compute_strides]; [k] is [i + 1].  [stride_val] is a
    [size_t]. *)
Fixpoint strides_loop (k : nat) (ds sts : list Z) (stride_val : Z) : list Z :=
  match k with
  | O => sts
  | S i =>
      strides_loop i ds (<[i := stride_val]> sts)
                   (size_mul stride_val (ds !!! i))
  end.

Definition set_strides (t : Tensor) (s : list Z) : Tensor :=
  mkTensor (dtype_ t) (device_ t) s (is_owner_ t) (shape_ t) (data_ t).

(** [void compute_strides()] *)
Definition compute_strides (t : Tensor) : Tensor :=
  match dims (shape_ t) with
  | [] => t
  | _ :: _ =>
      let n := length (dims (shape_ t)) in
      set_strides t (strides_loop n (dims (shape_ t))
                                  (resize n 0 (strides_ t)) 1)
  end.

(** [size_t element_size() const] *)
Definition element_size (t : Tensor) : outcome Z :=
  if dtype_ t =? Float32 then Ok 4
  else if dtype_ t =? Int32 then Ok 4
  else Throw (runtime_error "Unsupported dtype").

(** [void allocate_memory()] *)
Definition allocate_memory (t : Tensor) (h : heap) : outcome (Tensor * heap) :=
  sz ← element_size t;
  let total_bytes := size_mul (compute_numel t) sz in
  if total_bytes =? 0
  then Throw (runtime_error "Cannot allocate zero-size tensor.")
  else if type (device_ t) =? CPU then
    '(l, h') ← new_shared total_bytes h;
    Ok (mkTensor (dtype_ t) (device_ t) (strides_ t) true (shape_ t) (Some l), h')
  else Throw (runtime_error "CUDA allocation not implemented yet.").

(** The members as their default initialisers leave them, before a
    constructor's own initialiser list and body. *)
Definition Tensor_init (shape : Shape) (dtype : Dtype) (device : Device)
  : Tensor :=
  mkTensor dtype device [] true shape None.

(** [Tensor() = default] *)
Definition Tensor_default : Tensor :=
  Tensor_init (mkShape []) Float32 (mkDevice CPU).

(** Constructor from a nested vector.  The argument is a
    [std::vector<T>] with [T] itself a vector, that is a vector nested
    [S (S n)] levels deep around the scalar type [E]; [T::value_type] is [E]
    when [n = 0] and a vector otherwise. *)
Definition Tensor_nested (E : ctype) (n : nat) (vec : nvec (S (S n)))
  (dtype : Dtype) (device : Device) (h : heap) : outcome (Tensor * heap) :=
  let t := Tensor_init (infer_shape (S (S n)) vec) dtype device in
  '(t1, h1) ← allocate_memory t h;
  let flat_data := flatten (S (S n)) vec in
  let sizeof_value_type :=
    match n with O => sizeof E | S _ => sizeof_vector end in
  h2 ← memcpy h1 (data_ t1) (vector_bytes E flat_data)
         (size_mul (Z.of_nat (length flat_data)) sizeof_value_type);
  Ok (t1, h2).

(** The loop of the flat-data constructor over [shape.dims]. *)
Fixpoint expected_size_loop (ds : list Z) (expected_size : Z) : outcome Z :=
  match ds with
  | [] => Ok expected_size
  | dim :: rest =>
      if dim <=? 0
      then Throw (invalid_argument "Shape dimensions must be positive.")
      else expected_size_loop rest (size_mul expected_size dim)
  end.

(** Constructor from a flat [std::vector<T>] and an explicit shape. *)
Definition Tensor_flat (T : ctype) (vec : list Z) (shape : Shape)
  (dtype : Dtype) (device : Device) (h : heap) : outcome (Tensor * heap) :=
  let t := Tensor_init shape dtype device in
  expected_size ← expected_size_loop (dims shape) 1;
  if negb (Z.of_nat (length vec) =? expected_size)
  then Throw (invalid_argument "Data size does not match tensor shape.")
  else
    '(t1, h1) ← allocate_memory t h;
    h2 ← memcpy h1 (data_ t1) (vector_bytes T vec)
           (size_mul (Z.of_nat (length vec)) (sizeof T));
    Ok (t1, h2).

(** Constructor that only allocates. *)
Definition Tensor_alloc (shape : Shape) (dtype : Dtype) (device : Device)
  (h : heap) : outcome (Tensor * heap) :=
  let t := Tensor_init shape dtype device in
  allocate_memory (compute_strides t) h.

(** [data<T>()] and [numel()] *)
Definition data (t : Tensor) : option positive := data_ t.
Definition numel (t : Tensor) : Z := compute_numel t.

(** The bit patterns of the fill values: [0.0f], [1.0f], [0] and [1]. *)
Definition float_zero : Z := 0.
Definition float_one : Z := 0x3F800000.
Definition int_zero : Z := 0.
Definition int_one : Z := 1.

(** [Tensor::zeros]: [std::fill(ptr, ptr + t.numel(), 0.0f)] runs over the
    pointer range from [ptr] to [ptr + t.numel()]. *)
Definition zeros (shape : Shape) (dtype : Dtype) (device : Device) (h : heap)
  : outcome (Tensor * heap) :=
  '(t, h1) ← Tensor_alloc shape dtype device h;
  if dtype =? Float32 then
    h2 ← fill c_float (data t) 0
           (Z.to_nat (range_length c_float (numel t))) float_zero h1;
    Ok (t, h2)
  else if dtype =? Int32 then
    h2 ← fill c_int (data t) 0
           (Z.to_nat (range_length c_int (numel t))) int_zero h1;
    Ok (t, h2)
  else Ok (t, h1).

(** [Tensor::ones] *)
Definition ones (shape : Shape) (dtype : Dtype) (device : Device) (h : heap)
  : outcome (Tensor * heap) :=
  '(t, h1) ← Tensor_alloc shape dtype device h;
  if dtype =? Float32 then
    h2 ← fill c_float (data t) 0
           (Z.to_nat (range_length c_float (numel t))) float_one h1;
    Ok (t, h2)
  else if dtype =? Int32 then
    h2 ← fill c_int (data t) 0
           (Z.to_nat (range_length c_int (numel t))) int_one h1;
    Ok (t, h2)
  else Ok (t, h1).

(** The dtype's additive and multiplicative identity, as stored. *)
Definition dtype_zero (dtype : Dtype) : Z :=
  if dtype =? Float32 then float_zero else int_zero.
Definition dtype_one (dtype : Dtype) : Z :=
  if dtype =? Float32 then float_one else int_one.
Definition dtype_ctype (dtype : Dtype) : ctype :=
  if dtype =? Float32 then c_float else c_int.

End MainFolder.

(** * The demo of the strided tensor: [src/main_tensor.cpp] *)

Module MainTensor.

(** [int] division and remainder: truncating, undefined for a zero divisor
    and when the quotient leaves the range. *)
Definition int_div (a b : Z) : outcome Z :=
  if b =? 0 then Undefined "division by zero"
  else if in_int32 (Z.quot a b) then Ok (Z.quot a b)
  else Undefined "signed integer overflow".

Definition int_rem (a b : Z) : outcome Z :=
  if b =? 0 then Undefined "division by zero"
  else if in_int32 (Z.quot a b) then Ok (Z.rem a b)
  else Undefined "signed integer overflow".

(** The inner loop of [main] for the element number [i]:
    [int index = (i / t.stride()[j]) % t.shape()[j];] for [j] from [j0] on,
    [count] times; the indices it prints, in order. *)
Fixpoint indices_loop (t : Core.Tensor) (i : Z) (j0 count : nat)
  : outcome (list Z) :=
  match count with
  | O => Ok []
  | S c =>
      match Core.stride t !! j0, Core.shape t !! j0 with
      | Some st, Some d =>
          q ← int_div i st;
          index ← int_rem q d;
          rest ← indices_loop t i (S j0) c;
          Ok (index :: rest)
      | _, _ => Undefined "index out of range"
      end
  end.

Definition element_indices (t : Core.Tensor) (i : Z) : outcome (list Z) :=
  indices_loop t i 0 (length (Core.shape t)).

End MainTensor.

(** * Vocabulary of the properties *)

(** The linear offset of a multi-index under given strides:
    the sum of [index[j] * stride[j]]. *)
Fixpoint offset (sts idx : list Z) : Z :=
  match sts, idx with
  | st :: sts', x :: idx' => x * st + offset sts' idx'
  | _, _ => 0
  end.

(** The multi-index of the element at a linear offset [i], over the
    integers: [(i / stride[j]) mod dims[j]] for every dimension [j]. *)
Fixpoint unravel (i : Z) (sts ds : list Z) : list Z :=
  match sts, ds with
  | st :: sts', d :: ds' => (i / st) mod d :: unravel i sts' ds'
  | _, _ => []
  end.

(** A multi-index inside a shape: one index per dimension, each from [0]
    up to the dimension. *)
Definition in_shape (ds idx : list Z) : Prop :=
  Forall2 (fun d x => 0 <= x < d) ds idx.

(** Nested data is regular when, at every level, all the siblings have the
    shape of the first one. *)
Fixpoint regularb (n : nat) : MainFolder.nvec n -> bool :=
  match n with
  | O => fun _ => true
  | S m => fun vec =>
      match vec with
      | [] => true
      | v0 :: _ =>
          forallb (fun v => regularb m v
                            && bool_decide
                                 (MainFolder.dims (MainFolder.infer_shape m v)
                                  = MainFolder.dims (MainFolder.infer_shape m v0)))
                  vec
      end
  end.

(** The strides law, over a multiplication [mul]: same rank as the shape,
    last stride [1], and [stride[i] = mul stride[i+1] dims[i+1]]. *)
Definition stride_law (mul : Z -> Z -> Z) (ds sts : list Z) : Prop :=
  length sts = length ds /\
  last sts = Some 1 /\
  forall i s s' d,
    sts !! i = Some s -> sts !! S i = Some s' -> ds !! S i = Some d ->
    s = mul s' d.

(** The value that a store of [v] at type [T] leaves in the object. *)
Definition stored_value (T : ctype) (v : Z) : Z :=
  v mod 256 ^ Z.of_nat (Z.to_nat (sizeof T)).

(** The binary32 patterns of [0.0f], [1.0f], [2.0f], [3.0f], [4.0f], [5.0f]:
    the flat data [[0,1,2,3,4,5]] as a [std::vector<float>]. *)
Definition floats_0_to_5 : list Z :=
  [0x00000000; 0x3F800000; 0x40000000; 0x40400000; 0x40800000; 0x40A00000].

(** * Properties *)

(** ** Arithmetic of the size type *)

Lemma size_modulus_pos : 0 < size_modulus.
Proof. reflexivity. Qed.

Lemma size_wrap_range z : is_size_t (size_wrap z).
Proof. apply Z.mod_pos_bound, size_modulus_pos. Qed.

Lemma size_wrap_small z : is_size_t z -> size_wrap z = z.
Proof. intros Hz. apply Z.mod_small, Hz. Qed.

Lemma size_wrap_mul_l a b : size_wrap (size_wrap a * b) = size_wrap (a * b).
Proof. unfold size_wrap. apply Z.mul_mod_idemp_l. discriminate. Qed.

Lemma size_wrap_mul_r a b : size_wrap (a * size_wrap b) = size_wrap (a * b).
Proof. unfold size_wrap. apply Z.mul_mod_idemp_r. discriminate. Qed.

Lemma size_mul_wrap_l a b : size_mul (size_wrap a) b = size_wrap (a * b).
Proof. apply size_wrap_mul_l. Qed.

Lemma size_mul_wrap_r a b : size_mul a (size_wrap b) = size_wrap (a * b).
Proof. apply size_wrap_mul_r. Qed.

Lemma accumulate_size_wrap ds init :
  is_size_t init -> accumulate_size ds init = size_wrap (init * prodZ ds).
Proof.
  unfold accumulate_size. revert init.
  induction ds as [|d ds IH]; intros init Hinit; simpl.
  - rewrite Z.mul_1_r. symmetry. now apply size_wrap_small.
  - rewrite IH by apply size_wrap_range.
    unfold size_mul. rewrite size_wrap_mul_l.
    replace (init * size_wrap d * prodZ ds)
      with (size_wrap d * (init * prodZ ds)) by ring.
    rewrite size_wrap_mul_l. f_equal. ring.
Qed.

Lemma prodZ_app l1 l2 : prodZ (l1 ++ l2) = prodZ l1 * prodZ l2.
Proof. induction l1 as [|d l1 IH]; simpl; [ring | rewrite IH; ring]. Qed.

Lemma prodZ_pos ds : Forall (fun d => 1 <= d) ds -> 1 <= prodZ ds.
Proof. induction 1; simpl; [lia | nia]. Qed.

Lemma prodZ_zero ds : 0 ∈ ds -> prodZ ds = 0.
Proof.
  induction ds as [|d ds IH]; intros Hin.
  - inversion Hin.
  - apply elem_of_cons in Hin as [<- | Hin]; simpl; [reflexivity |].
    rewrite IH by assumption. ring.
Qed.

(** ** Row-major strides *)

Lemma suffix_products_length ds : length (suffix_products ds) = length ds.
Proof. induction ds; simpl; congruence. Qed.

Lemma suffix_products_lookup ds i :
  (i < length ds)%nat ->
  suffix_products ds !! i = Some (prodZ (drop (S i) ds)).
Proof.
  revert i. induction ds as [|d ds IH]; intros i Hi; simpl in Hi; [lia |].
  destruct i as [|i]; simpl.
  - now rewrite drop_0.
  - apply IH. lia.
Qed.

Lemma prodZ_drop ds i d :
  ds !! i = Some d -> prodZ (drop i ds) = d * prodZ (drop (S i) ds).
Proof. intros Hd. now rewrite (drop_S _ _ _ Hd). Qed.

Lemma suffix_products_law ds :
  ds <> [] -> stride_law Z.mul ds (suffix_products ds).
Proof.
  intros Hne. split; [apply suffix_products_length |]. split.
  - rewrite last_lookup, suffix_products_length.
    destruct ds as [|d ds]; [congruence |].
    rewrite suffix_products_lookup by (simpl; lia).
    simpl. rewrite drop_all. reflexivity.
  - intros i s s' d Hs Hs' Hd.
    pose proof (lookup_lt_Some _ _ _ Hd) as Hlt.
    rewrite suffix_products_lookup in Hs by lia.
    rewrite suffix_products_lookup in Hs' by lia.
    injection Hs as <-. injection Hs' as <-.
    rewrite (prodZ_drop _ _ _ Hd). ring.
Qed.

Lemma wrapped_suffix_products_law ds :
  ds <> [] -> stride_law size_mul ds (size_wrap <$> suffix_products ds).
Proof.
  intros Hne. destruct (suffix_products_law ds Hne) as (Hlen & Hlast & Hrec).
  split; [now rewrite length_fmap |]. split.
  - rewrite last_lookup, list_lookup_fmap, length_fmap, <- last_lookup, Hlast.
    reflexivity.
  - intros i s s' d Hs Hs' Hd. rewrite list_lookup_fmap in Hs, Hs'.
    destruct (suffix_products ds !! i) as [p|] eqn:Hp; [|discriminate].
    destruct (suffix_products ds !! S i) as [p'|] eqn:Hp'; [|discriminate].
    simpl in Hs, Hs'. injection Hs as <-. injection Hs' as <-.
    rewrite (Hrec i p p' d Hp Hp' Hd). now rewrite size_mul_wrap_l.
Qed.

(** *** The loop of [MainFolder.compute_strides] *)

Lemma MainFolder_strides_loop_spec ds k sts :
  (k <= length ds)%nat -> length sts = length ds ->
  MainFolder.strides_loop k ds sts (size_wrap (prodZ (drop k ds)))
  = take k (size_wrap <$> suffix_products ds) ++ drop k sts.
Proof.
  revert sts. induction k as [|i IH]; intros sts Hk Hlen; simpl.
  - now rewrite drop_0.
  - destruct (lookup_lt_is_Some_2 ds i ltac:(lia)) as [d Hd].
    rewrite (list_lookup_total_correct _ _ _ Hd).
    rewrite size_mul_wrap_l, (Z.mul_comm _ d), <- (prodZ_drop _ _ _ Hd).
    rewrite IH by (rewrite ?length_insert; lia).
    assert (Hsp : (size_wrap <$> suffix_products ds) !! i
                  = Some (size_wrap (prodZ (drop (S i) ds)))).
    { rewrite list_lookup_fmap, suffix_products_lookup by lia. reflexivity. }
    rewrite (take_S_r _ _ _ Hsp), <- app_assoc. f_equal. simpl.
    erewrite drop_S by (apply list_lookup_insert_eq; lia).
    now rewrite drop_insert_lt by lia.
Qed.

Lemma MainFolder_strides_loop_full ds sts :
  length sts = length ds ->
  MainFolder.strides_loop (length ds) ds sts 1
  = size_wrap <$> suffix_products ds.
Proof.
  intros Hlen.
  pose proof (MainFolder_strides_loop_spec ds (length ds) sts ltac:(lia) Hlen) as H.
  rewrite drop_all in H. simpl in H.
  change (size_wrap 1) with 1 in H. rewrite H.
  rewrite take_ge by (rewrite length_fmap, suffix_products_length; lia).
  rewrite drop_ge by lia. apply app_nil_r.
Qed.

Lemma MainFolder_compute_strides_spec (t : MainFolder.Tensor) :
  MainFolder.dims (MainFolder.shape_ t) <> [] ->
  MainFolder.strides_ (MainFolder.compute_strides t)
  = size_wrap <$> suffix_products (MainFolder.dims (MainFolder.shape_ t)).
Proof.
  intros Hne. unfold MainFolder.compute_strides.
  destruct (MainFolder.dims (MainFolder.shape_ t)) as [|d ds] eqn:E;
    [congruence |].
  unfold MainFolder.set_strides. cbn [MainFolder.strides_].
  apply MainFolder_strides_loop_full. now rewrite length_resize.
Qed.

(** *** The loop of [Core.compute_strides] *)

Lemma Core_strides_loop_step ds i sts d :
  ds !! i = Some d ->
  Core.strides_loop (S i) ds sts (prodZ (drop (S i) ds))
  = if in_int32 (prodZ (drop i ds))
    then Core.strides_loop i ds (<[i := prodZ (drop (S i) ds)]> sts)
                           (prodZ (drop i ds))
    else Undefined "signed integer overflow".
Proof.
  intros Hd. cbn [Core.strides_loop]. rewrite Hd. unfold int32_mul.
  rewrite (prodZ_drop _ _ _ Hd), (Z.mul_comm d).
  now destruct (in_int32 _).
Qed.

Lemma Core_strides_loop_inv ds k sts r :
  (k <= length ds)%nat -> length sts = length ds ->
  Core.strides_loop k ds sts (prodZ (drop k ds)) = Ok r ->
  r = take k (suffix_products ds) ++ drop k sts /\
  forall j, (j < k)%nat -> in_int32 (prodZ (drop j ds)) = true.
Proof.
  revert sts. induction k as [|i IH]; intros sts Hk Hlen Hrun.
  - cbn in Hrun. injection Hrun as <-. split; [now rewrite drop_0 | lia].
  - destruct (lookup_lt_is_Some_2 ds i ltac:(lia)) as [d Hd].
    rewrite (Core_strides_loop_step _ _ _ _ Hd) in Hrun.
    destruct (in_int32 (prodZ (drop i ds))) eqn:Hin; [|discriminate].
    apply IH in Hrun as [-> Hbelow]; [| lia | now rewrite length_insert].
    split.
    + rewrite (take_S_r _ _ _ (suffix_products_lookup ds i ltac:(lia))).
      rewrite <- app_assoc. f_equal. simpl.
      erewrite drop_S by (apply list_lookup_insert_eq; lia).
      now rewrite drop_insert_lt by lia.
    + intros j Hj. destruct (decide (j = i)) as [-> | Hne]; [assumption |].
      apply Hbelow. lia.
Qed.

Lemma Core_strides_loop_ok ds k sts :
  (k <= length ds)%nat -> length sts = length ds ->
  (forall j, (j < k)%nat -> in_int32 (prodZ (drop j ds)) = true) ->
  Core.strides_loop k ds sts (prodZ (drop k ds))
  = Ok (take k (suffix_products ds) ++ drop k sts).
Proof.
  revert sts. induction k as [|i IH]; intros sts Hk Hlen Hfit.
  - cbn. now rewrite drop_0.
  - destruct (lookup_lt_is_Some_2 ds i ltac:(lia)) as [d Hd].
    rewrite (Core_strides_loop_step _ _ _ _ Hd), (Hfit i) by lia.
    rewrite IH; [| lia | now rewrite length_insert | intros; apply Hfit; lia].
    f_equal.
    rewrite (take_S_r _ _ _ (suffix_products_lookup ds i ltac:(lia))).
    rewrite <- app_assoc. f_equal. simpl.
    erewrite drop_S by (apply list_lookup_insert_eq; lia).
    now rewrite drop_insert_lt by lia.
Qed.

(** [compute_strides] is defined exactly when no running product leaves
    [int32_t], and then stores the exact row-major strides. *)
Lemma Core_compute_strides_inv (t t' : Core.Tensor) :
  Core.compute_strides t = Ok t' ->
  t' = Core.set_stride t (suffix_products (Core.dims (Core.shape_ t))) /\
  (Core.dims (Core.shape_ t) <> [] ->
   in_int32 (prodZ (Core.dims (Core.shape_ t))) = true).
Proof.
  unfold Core.compute_strides.
  destruct (Core.dims (Core.shape_ t)) as [|d ds] eqn:E.
  - intros [= <-]. split; [reflexivity | congruence].
  - rewrite <- E.
    destruct (Core.strides_loop _ _ _ _) as [r| |] eqn:Hrun; try discriminate.
    intros [= <-].
    pose proof (Core_strides_loop_inv (Core.dims (Core.shape_ t))
                  (length (Core.dims (Core.shape_ t)))
                  (resize (length (Core.dims (Core.shape_ t))) 0
                          (Core.strides (Core.stride_ t))) r) as Hinv.
    rewrite drop_all in Hinv.
    destruct (Hinv ltac:(lia) ltac:(now rewrite length_resize) Hrun)
      as [-> Hfit].
    split.
    + f_equal.
      rewrite take_ge by (rewrite suffix_products_length; lia).
      rewrite drop_ge by (rewrite length_resize; lia). apply app_nil_r.
    + intros _. apply (Hfit 0%nat). rewrite E. simpl. lia.
Qed.

Lemma prodZ_drop_le ds j :
  Forall (fun d => 1 <= d) ds -> 1 <= prodZ (drop j ds) <= prodZ ds.
Proof.
  intros Hpos. rewrite <- (take_drop j ds) at 3. rewrite prodZ_app.
  pose proof (prodZ_pos (take j ds) (Forall_take _ _ _ Hpos)).
  pose proof (prodZ_pos (drop j ds) (Forall_drop _ _ _ Hpos)).
  nia.
Qed.

Lemma Core_compute_strides_ok (t : Core.Tensor) :
  Forall (fun d => 1 <= d) (Core.dims (Core.shape_ t)) ->
  prodZ (Core.dims (Core.shape_ t)) <= int32_max ->
  Core.compute_strides t
  = Ok (Core.set_stride t (suffix_products (Core.dims (Core.shape_ t)))).
Proof.
  intros Hpos Hfit. unfold Core.compute_strides.
  destruct (Core.dims (Core.shape_ t)) as [|d ds] eqn:E; [reflexivity |].
  rewrite <- E in *.
  pose proof (Core_strides_loop_ok (Core.dims (Core.shape_ t))
                (length (Core.dims (Core.shape_ t)))
                (resize (length (Core.dims (Core.shape_ t))) 0
                        (Core.strides (Core.stride_ t)))) as Hok.
  rewrite drop_all in Hok. simpl prodZ in Hok.
  rewrite Hok; [| lia | now rewrite length_resize |].
  - cbn. do 2 f_equal.
    rewrite take_ge by (rewrite suffix_products_length; lia).
    rewrite drop_ge by (rewrite length_resize; lia). apply app_nil_r.
  - intros j _. pose proof (prodZ_drop_le _ j Hpos).
    unfold in_int32, int32_min. apply andb_true_intro.
    split; [apply Z.leb_le | apply Z.leb_le]; lia.
Qed.

Lemma fmap_size_wrap_small l : Forall is_size_t l -> size_wrap <$> l = l.
Proof.
  induction 1 as [|z l Hz _ IH]; [reflexivity |].
  cbn. now rewrite IH, (size_wrap_small z Hz).
Qed.

(** ** Element counts *)

Lemma MainFolder_numel_wrap (t : MainFolder.Tensor) :
  MainFolder.dims (MainFolder.shape_ t) <> [] ->
  MainFolder.numel t = size_wrap (prodZ (MainFolder.dims (MainFolder.shape_ t))).
Proof.
  intros Hne. unfold MainFolder.numel, MainFolder.compute_numel.
  destruct (MainFolder.dims (MainFolder.shape_ t)) as [|d ds] eqn:E;
    [congruence |].
  rewrite accumulate_size_wrap by (unfold is_size_t; now vm_compute).
  now rewrite Z.mul_1_l.
Qed.

Lemma Core_numel_wrap (t : Core.Tensor) :
  Core.dims (Core.shape_ t) <> [] ->
  Core.numel t = size_wrap (prodZ (Core.dims (Core.shape_ t))).
Proof.
  intros Hne. unfold Core.numel.
  destruct (Core.dims (Core.shape_ t)) as [|d ds] eqn:E; [congruence |].
  rewrite accumulate_size_wrap by (unfold is_size_t; now vm_compute).
  now rewrite Z.mul_1_l.
Qed.

(** ** Typed access to a buffer *)

Lemma encode_le_length n v : length (encode_le n v) = n.
Proof. revert v. induction n as [|n IH]; intros v; cbn; [|rewrite IH]; reflexivity. Qed.

Lemma decode_encode_le n v : decode_le (encode_le n v) = v mod 256 ^ Z.of_nat n.
Proof.
  revert v. induction n as [|n IH]; intros v.
  - cbn. now rewrite Z.mod_1_r.
  - cbn [encode_le decode_le]. rewrite IH, Nat2Z.inj_succ, Z.pow_succ_r by lia.
    rewrite Z.rem_mul_r by lia. reflexivity.
Qed.

Lemma defined_bytes_fmap_Some bs : defined_bytes (Some <$> bs) = Some bs.
Proof. induction bs as [|b bs IH]; cbn; [|rewrite IH]; reflexivity. Qed.

Lemma object_bytes_length T v :
  length (object_bytes T v) = Z.to_nat (sizeof T).
Proof. apply encode_le_length. Qed.

Section Splice.
(** Overwriting the [k]-th chunk of [sz] cells of a buffer. *)
Variables (sz k : nat) (new bs : list cell).
Hypothesis Hnew : length new = sz.
Hypothesis Hfit : ((k + 1) * sz <= length bs)%nat.

Let spliced := take (k * sz) bs ++ new ++ drop ((k + 1) * sz) bs.

Lemma splice_length : length spliced = length bs.
Proof.
  unfold spliced. rewrite !length_app, length_take, length_drop, Hnew. lia.
Qed.

Lemma splice_chunk_eq : take sz (drop (k * sz) spliced) = new.
Proof.
  unfold spliced.
  rewrite drop_app_length' by (rewrite length_take; lia).
  now apply take_app_length'.
Qed.

Lemma splice_chunk_ne j :
  j <> k -> take sz (drop (j * sz) spliced) = take sz (drop (j * sz) bs).
Proof.
  intros Hne. apply list_eq. intros i. rewrite !lookup_take.
  case_decide as Hi; [| reflexivity].
  rewrite !lookup_drop. unfold spliced.
  destruct (decide (j < k)%nat) as [Hlt | Hge].
  - rewrite lookup_app_l by (rewrite length_take; nia).
    apply lookup_take_lt. nia.
  - rewrite lookup_app_r by (rewrite length_take; nia).
    rewrite lookup_app_r by (rewrite length_take, Hnew; nia).
    rewrite lookup_drop, length_take, Hnew. f_equal. nia.
Qed.
End Splice.

Lemma store_ok T h l b k v :
  blocks h !! l = Some b ->
  ((k + 1) * Z.to_nat (sizeof T) <= length (bytes b))%nat ->
  store T h (Some l) k v
  = Ok {| blocks :=
            <[l := Block (take (k * Z.to_nat (sizeof T)) (bytes b)
                          ++ (Some <$> object_bytes T v)
                          ++ drop ((k + 1) * Z.to_nat (sizeof T)) (bytes b))
                         (use_count b)]> (blocks h);
          avail := avail h |}.
Proof.
  intros Hb Hfit. unfold store. rewrite Hb.
  destruct (Nat.ltb_spec (length (bytes b)) ((k + 1) * Z.to_nat (sizeof T)));
    [lia | reflexivity].
Qed.

Lemma load_store_eq T h l b k v h' :
  blocks h !! l = Some b ->
  store T h (Some l) k v = Ok h' ->
  load T h' (Some l) k = Ok (stored_value T v).
Proof.
  intros Hb. unfold store. rewrite Hb.
  destruct (Nat.ltb_spec (length (bytes b)) ((k + 1) * Z.to_nat (sizeof T)))
    as [|Hfit]; [discriminate |].
  intros [= <-]. unfold load. cbn [blocks]. rewrite lookup_insert_eq.
  cbn [bytes].
  pose proof (object_bytes_length T v) as Hlen.
  rewrite splice_length by (rewrite ?length_fmap; assumption).
  destruct (Nat.ltb_spec (length (bytes b)) ((k + 1) * Z.to_nat (sizeof T)));
    [lia |].
  rewrite splice_chunk_eq by (rewrite ?length_fmap; assumption).
  rewrite defined_bytes_fmap_Some. unfold object_bytes, stored_value.
  now rewrite decode_encode_le.
Qed.

Lemma load_store_ne T h l b k v h' j :
  blocks h !! l = Some b ->
  store T h (Some l) k v = Ok h' ->
  j <> k ->
  load T h' (Some l) j = load T h (Some l) j.
Proof.
  intros Hb. unfold store. rewrite Hb.
  destruct (Nat.ltb_spec (length (bytes b)) ((k + 1) * Z.to_nat (sizeof T)))
    as [|Hfit]; [discriminate |].
  intros [= <-] Hne. unfold load. cbn [blocks].
  rewrite lookup_insert_eq, Hb. cbn [bytes].
  pose proof (object_bytes_length T v) as Hlen.
  rewrite splice_length by (rewrite ?length_fmap; assumption).
  now rewrite splice_chunk_ne by (rewrite ?length_fmap; assumption).
Qed.

(** A store touches one block only, and neither its size nor its owners. *)
Lemma store_frame T h l b k v h' :
  blocks h !! l = Some b ->
  store T h (Some l) k v = Ok h' ->
  (exists b', blocks h' !! l = Some b' /\
              length (bytes b') = length (bytes b) /\
              use_count b' = use_count b) /\
  (forall l', l' <> l -> blocks h' !! l' = blocks h !! l') /\
  avail h' = avail h.
Proof.
  intros Hb. unfold store. rewrite Hb.
  destruct (Nat.ltb_spec (length (bytes b)) ((k + 1) * Z.to_nat (sizeof T)))
    as [|Hfit]; [discriminate |].
  intros [= <-]. cbn [blocks avail]. split; [| split; [| reflexivity]].
  - eexists. rewrite lookup_insert_eq. split; [reflexivity |].
    cbn [bytes use_count]. split; [| reflexivity].
    apply splice_length; [| assumption].
    rewrite length_fmap. apply object_bytes_length.
  - intros l' Hl'. now rewrite lookup_insert_ne.
Qed.

(** [std::fill] over a range inside the buffer writes every element of the
    range and nothing before it. *)
Lemma fill_spec T l count : forall k v h b,
  blocks h !! l = Some b ->
  ((k + count) * Z.to_nat (sizeof T) <= length (bytes b))%nat ->
  exists h',
    fill T (Some l) k count v h = Ok h' /\
    (forall j, (k <= j < k + count)%nat ->
               load T h' (Some l) j = Ok (stored_value T v)) /\
    (forall j, (j < k)%nat -> load T h' (Some l) j = load T h (Some l) j) /\
    (exists b', blocks h' !! l = Some b' /\
                length (bytes b') = length (bytes b) /\
                use_count b' = use_count b) /\
    avail h' = avail h.
Proof.
  induction count as [|c IH]; intros k v h b Hb Hfit.
  - exists h. cbn. repeat split; try lia; eauto.
  - cbn [fill].
    rewrite (store_ok T h l b k v Hb) by nia.
    set (h1 := {| blocks := _; avail := avail h |}).
    assert (Hstore : store T h (Some l) k v = Ok h1)
      by (apply store_ok; [assumption | nia]).
    destruct (store_frame _ _ _ _ _ _ _ Hb Hstore)
      as ((b1 & Hb1 & Hlen1 & Huse1) & _ & Havail1).
    cbn [mbind outcome_bind].
    destruct (IH (S k) v h1 b1 Hb1 ltac:(rewrite Hlen1; nia))
      as (h' & Hfill & Hin & Hbefore & (b' & Hb' & Hlen' & Huse') & Havail').
    exists h'. split; [exact Hfill |]. repeat split.
    + intros j Hj. destruct (decide (j = k)) as [-> | Hne].
      * rewrite Hbefore by lia. exact (load_store_eq T h l b k v h1 Hb Hstore).
      * apply Hin. lia.
    + intros j Hj. rewrite Hbefore by lia.
      apply (load_store_ne T h l b k v h1 j Hb Hstore). lia.
    + exists b'. repeat split; congruence.
    + congruence.
Qed.

(** ** Pointer ranges *)

Lemma sizeof_pos T : 0 < sizeof T.
Proof. destruct T; reflexivity. Qed.

(** The range [[ptr, ptr + n)] spans [n * sizeof(T)] bytes, the product
    being the one of [size_t]. *)
Lemma range_length_bytes T n :
  range_length T n * sizeof T = size_mul n (sizeof T).
Proof.
  unfold range_length. pose proof (sizeof_pos T) as Hs.
  assert (Hdiv : (sizeof T | size_modulus))
    by (destruct T; [exists (2 ^ 62) | exists (2 ^ 62) | exists (2 ^ 61)];
        reflexivity).
  assert (Hmod : size_mul n (sizeof T) mod sizeof T = 0).
  { unfold size_mul, size_wrap.
    rewrite Z.mod_mod_divide by exact Hdiv.
    apply Z.mod_mul. lia. }
  pose proof (Z.div_mod (size_mul n (sizeof T)) (sizeof T) ltac:(lia)). lia.
Qed.

Lemma range_length_nonneg T n : 0 <= range_length T n.
Proof.
  unfold range_length. apply Z.div_pos; [| apply sizeof_pos].
  apply size_wrap_range.
Qed.

(** It has [n] elements when [n * sizeof(T)] does not wrap. *)
Lemma range_length_small T n :
  0 <= n -> n * sizeof T < size_modulus -> range_length T n = n.
Proof.
  intros Hn Hfit. pose proof (sizeof_pos T) as Hs.
  unfold range_length, size_mul.
  rewrite size_wrap_small by (unfold is_size_t; nia).
  apply Z.div_mul. lia.
Qed.

(** ** The validating constructor of [src/tensor.cpp] *)

Lemma Core_validate_dims_ok ds :
  Forall (fun d => 1 <= d) ds -> Core.validate_dims ds = Ok tt.
Proof.
  induction 1 as [|d ds Hd _ IH]; [reflexivity |].
  cbn. destruct (Z.leb_spec d 0); [lia | exact IH].
Qed.

Lemma Core_validate_dims_inv ds :
  Core.validate_dims ds = Ok tt -> Forall (fun d => 1 <= d) ds.
Proof.
  induction ds as [|d ds IH]; [constructor |].
  cbn. destruct (Z.leb_spec d 0) as [Hle | Hgt]; [discriminate |].
  intros Hrest. constructor; [lia | auto].
Qed.

Lemma Core_validate_dims_throws ds d :
  d ∈ ds -> d <= 0 ->
  Core.validate_dims ds
  = Throw (invalid_argument "Tensor dimensions must be positive.").
Proof.
  intros Hin Hd. induction ds as [|d' ds IH]; [inversion Hin |].
  cbn. destruct (Z.leb_spec d' 0); [reflexivity |].
  apply elem_of_cons in Hin as [-> | Hin]; [lia | auto].
Qed.

(** What a tensor returned by the constructor looks like. *)
Lemma Core_Tensor_new_inv shape dtype device rg h t h' :
  Core.Tensor_new shape dtype device rg h = Ok (t, h') ->
  Core.dims shape <> [] /\
  Forall (fun d => 1 <= d) (Core.dims shape) /\
  prodZ (Core.dims shape) <= int32_max /\
  exists sz l,
    Core.dtype_size dtype = Ok sz /\
    Core.type device = Core.CPU /\
    new_shared (size_mul (size_wrap (prodZ (Core.dims shape))) sz) h
      = Ok (l, h') /\
    t = Core.mkTensor shape (Core.mkStride (suffix_products (Core.dims shape)))
                      dtype device rg true (Some l).
Proof.
  unfold Core.Tensor_new. cbn [Core.shape_].
  destruct (Core.dims shape) as [|d ds] eqn:E; [discriminate |].
  rewrite <- E.
  destruct (Core.validate_dims (Core.dims shape)) as [[]| |] eqn:Hval;
    try discriminate.
  cbn [mbind outcome_bind].
  destruct (Core.compute_strides _) as [t1| |] eqn:Hstr; try discriminate.
  apply Core_compute_strides_inv in Hstr as [-> Hfit].
  cbn [Core.shape_] in Hfit. specialize (Hfit ltac:(congruence)).
  cbn [mbind outcome_bind Core.shape_].
  unfold Core.allocate_memory, Core.nbytes.
  rewrite Core_numel_wrap by (cbn; congruence).
  unfold Core.set_stride.
  cbn [Core.dtype_ Core.shape_ Core.device_ Core.stride_
       Core.requires_grad_ Core.is_owner_ Core.data_].
  destruct (Core.dtype_size dtype) as [sz| |] eqn:Hsz; try discriminate.
  cbn [mbind outcome_bind].
  destruct (size_mul _ sz =? 0); [discriminate |].
  destruct (Core.type device =? Core.CPU) eqn:Hcpu.
  - destruct (new_shared _ h) as [[l h1]| |] eqn:Hnew; try discriminate.
    intros [= <- <-].
    repeat split; [congruence | now apply Core_validate_dims_inv | |].
    + unfold in_int32 in Hfit. apply andb_prop in Hfit as [_ Hfit].
      now apply Z.leb_le in Hfit.
    + exists sz, l. repeat split; try reflexivity; try assumption.
      now apply Z.eqb_eq.
  - destruct (Core.type device =? Core.CUDA); discriminate.
Qed.

(** The checks of the constructor: a tensor is only returned for a
    non-empty shape of positive dimensions. *)
Lemma Core_Tensor_new_checked shape dtype device rg h t h' :
  Core.Tensor_new shape dtype device rg h = Ok (t, h') ->
  Core.dims shape <> [] /\ Forall (fun d => 1 <= d) (Core.dims shape).
Proof.
  unfold Core.Tensor_new. cbn [Core.shape_].
  destruct (Core.dims shape) as [|d ds] eqn:E; [discriminate |].
  rewrite <- E.
  destruct (Core.validate_dims (Core.dims shape)) as [[]| |] eqn:Hval;
    try discriminate.
  intros _. split; [congruence | now apply Core_validate_dims_inv].
Qed.

(** Past the validation of a shape whose strides are computable, the
    constructor is [allocate_memory] on the tensor with its strides. *)
Lemma Core_Tensor_new_valid shape dtype device rg h :
  Core.dims shape <> [] ->
  Forall (fun d => 1 <= d) (Core.dims shape) ->
  prodZ (Core.dims shape) <= int32_max ->
  Core.Tensor_new shape dtype device rg h
  = Core.allocate_memory
      (Core.mkTensor shape (Core.mkStride (suffix_products (Core.dims shape)))
                     dtype device rg false None) h.
Proof.
  intros Hne Hpos Hfit. unfold Core.Tensor_new. cbn [Core.shape_].
  destruct (Core.dims shape) as [|d ds] eqn:E; [congruence |].
  rewrite <- E in *. rewrite Core_validate_dims_ok by assumption.
  cbn [mbind outcome_bind].
  rewrite Core_compute_strides_ok by assumption. reflexivity.
Qed.

(** A tensor returned for dimensions whose product fits in [int32_t]: the
    bound is a premise here, it is not read off the computation. *)
Lemma Core_Tensor_new_exact shape dtype device rg h t h' :
  Core.Tensor_new shape dtype device rg h = Ok (t, h') ->
  prodZ (Core.dims shape) <= int32_max ->
  Core.shape t = Core.dims shape /\
  Core.dims shape <> [] /\
  Forall (fun d => 1 <= d) (Core.dims shape) /\
  Core.stride t = suffix_products (Core.dims shape) /\
  Core.dtype t = dtype /\
  Core.numel t = prodZ (Core.dims shape) /\
  1 <= prodZ (Core.dims shape).
Proof.
  intros Hnew Hfit.
  destruct (Core_Tensor_new_checked _ _ _ _ _ _ _ Hnew) as [Hne Hpos].
  pose proof (prodZ_pos _ Hpos) as Hprod.
  rewrite Core_Tensor_new_valid in Hnew by assumption.
  unfold Core.allocate_memory in Hnew.
  destruct (Core.nbytes _) as [n| |]; try discriminate.
  cbn [mbind outcome_bind Core.device_] in Hnew.
  destruct (n =? 0); [discriminate |].
  destruct (Core.type device =? Core.CPU);
    [| destruct (Core.type device =? Core.CUDA); discriminate].
  destruct (new_shared n h) as [[l h1]| |]; try discriminate.
  cbn [mbind outcome_bind Core.shape_ Core.stride_ Core.dtype_ Core.device_
       Core.requires_grad_] in Hnew.
  injection Hnew as <- <-.
  repeat split; try assumption.
  rewrite Core_numel_wrap by exact Hne. cbn [Core.shape_].
  apply size_wrap_small. unfold is_size_t, size_modulus, int32_max in *. lia.
Qed.

(** ** The constructors of [src/main_folder/tensor.h] *)

Lemma MainFolder_expected_size_loop_throws ds d init :
  d ∈ ds -> d <= 0 ->
  MainFolder.expected_size_loop ds init
  = Throw (invalid_argument "Shape dimensions must be positive.").
Proof.
  intros Hin Hd. revert init.
  induction ds as [|d' ds IH]; intros init; [inversion Hin |].
  cbn. destruct (Z.leb_spec d' 0); [reflexivity |].
  apply elem_of_cons in Hin as [-> | Hin]; [lia | auto].
Qed.

Lemma MainFolder_expected_size_loop_ok ds init :
  Forall (fun d => 1 <= d) ds ->
  MainFolder.expected_size_loop ds init = Ok (size_wrap (init * prodZ ds))
  \/ (ds = [] /\ MainFolder.expected_size_loop ds init = Ok init).
Proof.
  intros Hpos. revert init.
  induction Hpos as [|d ds Hd Hpos IH]; intros init; [right; now split |].
  left. cbn. destruct (Z.leb_spec d 0); [lia |].
  destruct (IH (size_mul init d)) as [-> | [-> ->]].
  - f_equal. unfold size_mul. rewrite size_wrap_mul_l. f_equal. ring.
  - f_equal. cbn. unfold size_mul. f_equal. ring.
Qed.

Lemma MainFolder_expected_size ds :
  Forall (fun d => 1 <= d) ds ->
  MainFolder.expected_size_loop ds 1 = Ok (size_wrap (prodZ ds)).
Proof.
  intros Hpos.
  destruct (MainFolder_expected_size_loop_ok ds 1 Hpos) as [-> | [-> ->]].
  - now rewrite Z.mul_1_l.
  - reflexivity.
Qed.

Lemma MainFolder_compute_strides_shape t :
  MainFolder.shape_ (MainFolder.compute_strides t) = MainFolder.shape_ t.
Proof.
  unfold MainFolder.compute_strides.
  now destruct (MainFolder.dims (MainFolder.shape_ t)).
Qed.

Lemma MainFolder_numel_zero (t : MainFolder.Tensor) :
  MainFolder.dims (MainFolder.shape_ t) = []
  \/ 0 ∈ MainFolder.dims (MainFolder.shape_ t) ->
  MainFolder.compute_numel t = 0.
Proof.
  intros [Hnil | Hzero].
  - unfold MainFolder.compute_numel. now rewrite Hnil.
  - change (MainFolder.compute_numel t) with (MainFolder.numel t).
    rewrite MainFolder_numel_wrap.
    + now rewrite prodZ_zero.
    + intros Hnil. rewrite Hnil in Hzero. inversion Hzero.
Qed.

Lemma MainFolder_allocate_zero t h :
  MainFolder.compute_numel t = 0 ->
  throws_runtime_error (MainFolder.allocate_memory t h) = true.
Proof.
  intros Hzero. unfold MainFolder.allocate_memory, MainFolder.element_size.
  rewrite Hzero.
  destruct (MainFolder.dtype_ t =? MainFolder.Float32); [reflexivity |].
  destruct (MainFolder.dtype_ t =? MainFolder.Int32); reflexivity.
Qed.

(** ** Allocation *)

Lemma new_shared_inv n h l h' :
  new_shared n h = Ok (l, h') ->
  n <= avail h /\
  blocks h !! l = None /\
  blocks h' = <[l := Block (replicate (Z.to_nat n) None) 1]> (blocks h) /\
  avail h' = avail h - n.
Proof.
  unfold new_shared. destruct (Z.ltb_spec (avail h) n); [discriminate |].
  intros [= <- <-]. cbn [blocks avail]. repeat split; try lia.
  apply not_elem_of_dom, is_fresh.
Qed.

Lemma new_shared_ok n h :
  n <= avail h -> exists l h', new_shared n h = Ok (l, h').
Proof.
  intros Hn. unfold new_shared.
  destruct (Z.ltb_spec (avail h) n); [lia |]. eauto.
Qed.

Lemma MainFolder_allocate_inv t h t1 h1 :
  MainFolder.allocate_memory t h = Ok (t1, h1) ->
  exists l,
    let total_bytes := size_mul (MainFolder.compute_numel t) 4 in
    total_bytes <> 0 /\
    new_shared total_bytes h = Ok (l, h1) /\
    t1 = MainFolder.mkTensor (MainFolder.dtype_ t) (MainFolder.device_ t)
           (MainFolder.strides_ t) true (MainFolder.shape_ t) (Some l).
Proof.
  unfold MainFolder.allocate_memory, MainFolder.element_size.
  assert (Hcase : forall sz,
    sz = 4 ->
    (if size_mul (MainFolder.compute_numel t) sz =? 0
     then Throw (runtime_error "Cannot allocate zero-size tensor.")
     else if MainFolder.type (MainFolder.device_ t) =? MainFolder.CPU
          then '(l, h') ← new_shared (size_mul (MainFolder.compute_numel t) sz) h;
               Ok (MainFolder.mkTensor (MainFolder.dtype_ t)
                     (MainFolder.device_ t) (MainFolder.strides_ t) true
                     (MainFolder.shape_ t) (Some l), h')
          else Throw (runtime_error "CUDA allocation not implemented yet."))
    = Ok (t1, h1) ->
    exists l,
      size_mul (MainFolder.compute_numel t) 4 <> 0 /\
      new_shared (size_mul (MainFolder.compute_numel t) 4) h = Ok (l, h1) /\
      t1 = MainFolder.mkTensor (MainFolder.dtype_ t) (MainFolder.device_ t)
             (MainFolder.strides_ t) true (MainFolder.shape_ t) (Some l)).
  { intros sz ->.
    destruct (Z.eqb_spec (size_mul (MainFolder.compute_numel t) 4) 0);
      [discriminate |].
    destruct (MainFolder.type (MainFolder.device_ t) =? MainFolder.CPU);
      [| discriminate].
    destruct (new_shared _ h) as [[l h']| |]; try discriminate.
    intros [= <- <-]. exists l. repeat split; assumption. }
  destruct (MainFolder.dtype_ t =? MainFolder.Float32);
    [exact (Hcase 4 eq_refl) |].
  destruct (MainFolder.dtype_ t =? MainFolder.Int32);
    [exact (Hcase 4 eq_refl) | discriminate].
Qed.

Lemma MainFolder_allocate_ok t h :
  MainFolder.dtype_ t = MainFolder.Float32
  \/ MainFolder.dtype_ t = MainFolder.Int32 ->
  MainFolder.type (MainFolder.device_ t) = MainFolder.CPU ->
  0 < size_mul (MainFolder.compute_numel t) 4 <= avail h ->
  exists l h',
    MainFolder.allocate_memory t h
    = Ok (MainFolder.mkTensor (MainFolder.dtype_ t) (MainFolder.device_ t)
            (MainFolder.strides_ t) true (MainFolder.shape_ t) (Some l), h') /\
    new_shared (size_mul (MainFolder.compute_numel t) 4) h = Ok (l, h').
Proof.
  intros Hdtype Hcpu [Hpos Hfit].
  destruct (new_shared_ok _ h Hfit) as (l & h' & Hnew).
  exists l, h'. split; [| exact Hnew].
  unfold MainFolder.allocate_memory, MainFolder.element_size.
  assert (Hsz : (if MainFolder.dtype_ t =? MainFolder.Float32 then Ok 4
                 else if MainFolder.dtype_ t =? MainFolder.Int32 then Ok 4
                 else Throw (runtime_error "Unsupported dtype")) = Ok 4)
    by (destruct Hdtype as [-> | ->]; reflexivity).
  rewrite Hsz. cbn [mbind outcome_bind].
  destruct (Z.eqb_spec (size_mul (MainFolder.compute_numel t) 4) 0); [lia |].
  rewrite Hcpu, Hnew. reflexivity.
Qed.

(** The allocate-only constructor on the CPU, when the byte count of the
    tensor, as computed in [size_t], is not zero and is available. *)
Lemma MainFolder_alloc_ok shape dtype h :
  MainFolder.dims shape <> [] ->
  dtype = MainFolder.Float32 \/ dtype = MainFolder.Int32 ->
  0 < size_mul (size_wrap (prodZ (MainFolder.dims shape))) 4 <= avail h ->
  exists t h1 l,
    MainFolder.Tensor_alloc shape dtype (MainFolder.mkDevice MainFolder.CPU) h
    = Ok (t, h1) /\
    MainFolder.shape_ t = shape /\
    MainFolder.numel t = size_wrap (prodZ (MainFolder.dims shape)) /\
    MainFolder.data t = Some l /\
    blocks h1 !! l
    = Some (Block (replicate
                     (Z.to_nat (size_mul (size_wrap (prodZ (MainFolder.dims shape))) 4))
                     None) 1).
Proof.
  intros Hne Hdtype Hmem.
  set (t0 := MainFolder.compute_strides
               (MainFolder.Tensor_init shape dtype
                  (MainFolder.mkDevice MainFolder.CPU))).
  assert (Hshape0 : MainFolder.shape_ t0 = shape)
    by apply MainFolder_compute_strides_shape.
  assert (Hnumel0 : MainFolder.compute_numel t0
                    = size_wrap (prodZ (MainFolder.dims shape))).
  { change (MainFolder.compute_numel t0) with (MainFolder.numel t0).
    rewrite MainFolder_numel_wrap by now rewrite Hshape0.
    now rewrite Hshape0. }
  assert (Hdtype0 : MainFolder.dtype_ t0 = dtype).
  { unfold t0, MainFolder.compute_strides.
    now destruct (MainFolder.dims _). }
  assert (Hdevice0 : MainFolder.type (MainFolder.device_ t0) = MainFolder.CPU).
  { unfold t0, MainFolder.compute_strides.
    now destruct (MainFolder.dims _). }
  destruct (MainFolder_allocate_ok t0 h) as (l & h1 & Halloc & Hnew);
    [now rewrite Hdtype0 | exact Hdevice0 | now rewrite Hnumel0 |].
  apply new_shared_inv in Hnew as (_ & _ & Hblocks & _).
  rewrite Hnumel0 in Hblocks.
  set (t := MainFolder.mkTensor _ _ _ _ _ _) in Halloc.
  exists t, h1, l. split; [exact Halloc |].
  split; [exact Hshape0 |]. split; [exact Hnumel0 |]. split; [reflexivity |].
  rewrite Hblocks. apply lookup_insert_eq.
Qed.

(** When the free store cannot supply that byte count, [operator new]
    throws. *)
Lemma MainFolder_alloc_bad_alloc shape dtype h :
  MainFolder.dims shape <> [] ->
  dtype = MainFolder.Float32 \/ dtype = MainFolder.Int32 ->
  size_mul (size_wrap (prodZ (MainFolder.dims shape))) 4 <> 0 ->
  avail h < size_mul (size_wrap (prodZ (MainFolder.dims shape))) 4 ->
  MainFolder.Tensor_alloc shape dtype (MainFolder.mkDevice MainFolder.CPU) h
  = Throw bad_alloc.
Proof.
  intros Hne Hdtype Hnz Hmem. unfold MainFolder.Tensor_alloc.
  set (t0 := MainFolder.compute_strides _).
  assert (Hnumel0 : MainFolder.compute_numel t0
                    = size_wrap (prodZ (MainFolder.dims shape))).
  { change (MainFolder.compute_numel t0) with (MainFolder.numel t0).
    unfold t0. rewrite MainFolder_numel_wrap;
      rewrite MainFolder_compute_strides_shape; [reflexivity | exact Hne]. }
  assert (Hdtype0 : MainFolder.dtype_ t0 = dtype).
  { unfold t0, MainFolder.compute_strides.
    now destruct (MainFolder.dims _). }
  assert (Hdevice0 : MainFolder.type (MainFolder.device_ t0) = MainFolder.CPU).
  { unfold t0, MainFolder.compute_strides.
    now destruct (MainFolder.dims _). }
  unfold MainFolder.allocate_memory, MainFolder.element_size.
  rewrite Hdtype0, Hdevice0, Hnumel0.
  assert (Hsz : (if dtype =? MainFolder.Float32 then Ok 4
                 else if dtype =? MainFolder.Int32 then Ok 4
                 else Throw (runtime_error "Unsupported dtype")) = Ok 4)
    by (destruct Hdtype as [-> | ->]; reflexivity).
  rewrite Hsz. cbn [mbind outcome_bind].
  destruct (Z.eqb_spec (size_mul (size_wrap (prodZ (MainFolder.dims shape))) 4) 0);
    [contradiction |].
  rewrite Z.eqb_refl. unfold new_shared.
  destruct (Z.ltb_spec (avail h)
              (size_mul (size_wrap (prodZ (MainFolder.dims shape))) 4));
    [reflexivity | lia].
Qed.

(** The allocate-only constructor followed by the [std::fill] of a factory
    over the pointer range from [ptr] to [ptr + numel()]: the fill writes
    the whole buffer and nothing else, so it cannot fail; the elements of
    the buffer hold the value, and an element number from the length of the
    range on is past the end of the buffer. *)
Lemma MainFolder_alloc_fill shape dtype h T v :
  MainFolder.dims shape <> [] ->
  dtype = MainFolder.Float32 \/ dtype = MainFolder.Int32 ->
  sizeof T = 4 ->
  0 < size_mul (size_wrap (prodZ (MainFolder.dims shape))) 4 <= avail h ->
  exists t h1 h2,
    MainFolder.Tensor_alloc shape dtype (MainFolder.mkDevice MainFolder.CPU) h
    = Ok (t, h1) /\
    MainFolder.shape_ t = shape /\
    MainFolder.numel t = size_wrap (prodZ (MainFolder.dims shape)) /\
    fill T (MainFolder.data t) 0
         (Z.to_nat (range_length T (MainFolder.numel t))) v h1 = Ok h2 /\
    (forall k, Z.of_nat k < range_length T (MainFolder.numel t) ->
               load T h2 (MainFolder.data t) k = Ok (stored_value T v)) /\
    (forall k, range_length T (MainFolder.numel t) <= Z.of_nat k ->
               load T h2 (MainFolder.data t) k
               = Undefined "read past the end of the buffer").
Proof.
  intros Hne Hdtype HT Hmem.
  destruct (MainFolder_alloc_ok shape dtype h Hne Hdtype Hmem)
    as (t & h1 & l & Halloc & Hshape & Hnumel & Hdata & Hblock).
  pose proof (range_length_bytes T (MainFolder.numel t)) as Hbytes.
  pose proof (range_length_nonneg T (MainFolder.numel t)) as Hnonneg.
  set (r := range_length T (MainFolder.numel t)) in *.
  rewrite HT, Hnumel in Hbytes.
  set (n := size_mul (size_wrap (prodZ (MainFolder.dims shape))) 4) in *.
  assert (Hsz : Z.to_nat (sizeof T) = 4%nat) by now rewrite HT.
  destruct (fill_spec T l (Z.to_nat r) 0%nat v h1
              (Block (replicate (Z.to_nat n) None) 1) Hblock)
    as (h2 & Hfill & Hin & _ & (b' & Hb' & Hlen' & _) & _).
  { cbn [bytes]. rewrite length_replicate, Hsz. lia. }
  exists t, h1, h2. rewrite Hdata.
  split; [exact Halloc |]. split; [exact Hshape |]. split; [exact Hnumel |].
  split; [exact Hfill |]. split.
  - intros k Hk. apply Hin. lia.
  - intros k Hk. unfold load. rewrite Hb', Hlen'. cbn [bytes].
    rewrite length_replicate, Hsz.
    destruct (Nat.ltb_spec (Z.to_nat n) ((k + 1) * 4)); [reflexivity | lia].
Qed.

(** ** Flat data read back through [data<T>()] *)

Lemma vector_bytes_length T vec :
  length (vector_bytes T vec) = (length vec * Z.to_nat (sizeof T))%nat.
Proof.
  unfold vector_bytes. induction vec as [|x vec IH]; [reflexivity |].
  cbn [map concat length]. rewrite length_app, IH, object_bytes_length. lia.
Qed.

Lemma vector_bytes_chunk T vec k v :
  vec !! k = Some v ->
  take (Z.to_nat (sizeof T))
       (drop (k * Z.to_nat (sizeof T)) (vector_bytes T vec))
  = object_bytes T v.
Proof.
  revert k. induction vec as [|x vec IH]; intros k Hk; [discriminate |].
  change (vector_bytes T (x :: vec))
    with (object_bytes T x ++ vector_bytes T vec).
  destruct k as [|k]; cbn in Hk.
  - injection Hk as ->. cbn [Nat.mul]. rewrite drop_0.
    apply take_app_length'. now rewrite object_bytes_length.
  - cbn [Nat.mul].
    rewrite drop_app_add' by now rewrite object_bytes_length.
    now apply IH.
Qed.

Lemma memcpy_inv h l b src n h' :
  blocks h !! l = Some b ->
  memcpy h (Some l) src n = Ok h' ->
  n <= Z.of_nat (length src) /\
  n <= Z.of_nat (length (bytes b)) /\
  blocks h' = <[l := Block ((Some <$> take (Z.to_nat n) src)
                            ++ drop (Z.to_nat n) (bytes b))
                           (use_count b)]> (blocks h) /\
  avail h' = avail h.
Proof.
  intros Hb. unfold memcpy. rewrite Hb.
  destruct (Z.ltb_spec (Z.of_nat (length src)) n); [discriminate |].
  destruct (Z.ltb_spec (Z.of_nat (length (bytes b))) n); [discriminate |].
  intros [= <-]. repeat split; assumption.
Qed.

(** After copying the whole array of a vector to the start of a buffer, the
    [k]-th element read through [data<T>()] is the [k]-th of the vector. *)
Lemma load_memcpy T h l b vec h' k v :
  blocks h !! l = Some b ->
  memcpy h (Some l) (vector_bytes T vec)
         (Z.of_nat (length (vector_bytes T vec))) = Ok h' ->
  vec !! k = Some v ->
  load T h' (Some l) k = Ok (stored_value T v).
Proof.
  intros Hb Hcpy Hk.
  destruct (memcpy_inv _ _ _ _ _ _ Hb Hcpy) as (_ & Hn & Hblocks & _).
  rewrite Nat2Z.id, take_ge in Hblocks by lia.
  pose proof (lookup_lt_Some _ _ _ Hk) as Hlt.
  pose proof (vector_bytes_length T vec) as Hlen.
  unfold load. rewrite Hblocks, lookup_insert_eq. cbn [bytes].
  assert (Hin : ((k + 1) * Z.to_nat (sizeof T)
                 <= length (vector_bytes T vec))%nat) by (rewrite Hlen; nia).
  destruct (Nat.ltb_spec
              (length ((Some <$> vector_bytes T vec)
                       ++ drop (length (vector_bytes T vec)) (bytes b)))
              ((k + 1) * Z.to_nat (sizeof T))) as [Hshort |_].
  { rewrite length_app, length_fmap in Hshort. lia. }
  rewrite drop_app_le by (rewrite length_fmap; lia).
  rewrite take_app_le by (rewrite length_drop, length_fmap; lia).
  rewrite <- fmap_drop, <- fmap_take, (vector_bytes_chunk T vec k v Hk).
  rewrite defined_bytes_fmap_Some. unfold object_bytes, stored_value.
  now rewrite decode_encode_le.
Qed.

(** The flat-data constructor copies the data unchanged: whenever it
    returns, every element of the vector is read back at its own index
    (the array of the vector is smaller than the address space). *)
Lemma MainFolder_Tensor_flat_round_trip T vec shape dtype device h t h' :
  Z.of_nat (length vec) * sizeof T < size_modulus ->
  MainFolder.Tensor_flat T vec shape dtype device h = Ok (t, h') ->
  forall k v, vec !! k = Some v ->
              load T h' (MainFolder.data t) k = Ok (stored_value T v).
Proof.
  intros Hsmall. unfold MainFolder.Tensor_flat.
  destruct (MainFolder.expected_size_loop _ 1) as [e| |]; try discriminate.
  cbn [mbind outcome_bind].
  destruct (negb _); [discriminate |].
  destruct (MainFolder.allocate_memory _ h) as [[t1 h1]| |] eqn:Halloc;
    try discriminate.
  cbn [mbind outcome_bind].
  destruct (memcpy _ _ _ _) as [h2| |] eqn:Hcpy; try discriminate.
  intros [= <- <-] k v Hk.
  apply MainFolder_allocate_inv in Halloc as (l & _ & Hnew & ->).
  apply new_shared_inv in Hnew as (_ & _ & Hblocks & _).
  cbn [MainFolder.data MainFolder.data_] in *.
  assert (Hn : size_mul (Z.of_nat (length vec)) (sizeof T)
               = Z.of_nat (length (vector_bytes T vec))).
  { rewrite vector_bytes_length, Nat2Z.inj_mul, Z2Nat.id by (destruct T; cbn; lia).
    apply size_wrap_small. unfold is_size_t.
    destruct T; cbn [sizeof] in *; lia. }
  rewrite Hn in Hcpy.
  eapply load_memcpy; [| exact Hcpy | exact Hk].
  rewrite Hblocks. apply lookup_insert_eq.
Qed.

(** ** Claim C1: the stride law *)

(** C1, as stated, fails in [src/main_folder/tensor.h]: the allocate-only
    constructor accepts the shape [1, 2^63+1, 2] (its two elements need eight
    bytes), and the strides it stores are [2, 2, 1]; [stride[0] = 2] is not
    [stride[1] * dims[1] = 2^64 + 2]. *)
Lemma C1_counterexample :
  MainFolder.wf_shape (MainFolder.mkShape [1; 9223372036854775809; 2]) /\
  exists t h,
    MainFolder.Tensor_alloc (MainFolder.mkShape [1; 9223372036854775809; 2])
      MainFolder.Float32 (MainFolder.mkDevice MainFolder.CPU) (empty_heap 8)
    = Ok (t, h) /\
    MainFolder.strides_ t = [2; 2; 1] /\
    ~ stride_law Z.mul (MainFolder.dims (MainFolder.shape_ t))
                       (MainFolder.strides_ t).
Proof.
  split; [repeat constructor; unfold size_modulus; lia |].
  eexists. eexists. split; [vm_compute; reflexivity |].
  split; [reflexivity |].
  intros (_ & _ & Hrec).
  specialize (Hrec 0%nat 2 2 9223372036854775809 eq_refl eq_refl eq_refl).
  discriminate Hrec.
Qed.

(** C1 (amended).  For every non-empty shape the computed strides have the
    rank of the shape, the last stride is [1], and [stride[i]] is
    [stride[i+1] * dims[i+1]] in the arithmetic of the stride type:
    - in [src/main_folder/tensor.h] ([size_t]) the product is taken modulo
      [2^64], and it is the product over the integers whenever the products
      of the trailing dimensions fit in [size_t];
    - in [src/tensor.cpp] ([int32_t]) the computation is defined whenever the
      dimensions are positive and their product fits in [int32_t], and a
      defined computation stores the products over the integers.
    The shape [2,3,4] gets the strides [12,4,1], and an empty shape gets an
    empty stride sequence, not an error. *)
Theorem C1_stride_law :
  (forall t : MainFolder.Tensor,
      MainFolder.dims (MainFolder.shape_ t) <> [] ->
      let ds := MainFolder.dims (MainFolder.shape_ t) in
      let sts := MainFolder.strides_ (MainFolder.compute_strides t) in
      stride_law size_mul ds sts /\
      (Forall is_size_t (suffix_products ds) -> stride_law Z.mul ds sts)) /\
  (forall t t' : Core.Tensor,
      Core.dims (Core.shape_ t) <> [] ->
      Core.compute_strides t = Ok t' ->
      Core.shape t' = Core.shape t /\
      stride_law Z.mul (Core.shape t') (Core.stride t')) /\
  (forall t : Core.Tensor,
      Forall (fun d => 1 <= d) (Core.dims (Core.shape_ t)) ->
      prodZ (Core.dims (Core.shape_ t)) <= int32_max ->
      is_ok (Core.compute_strides t) = true) /\
  (forall dtype device,
      MainFolder.strides_
        (MainFolder.compute_strides
           (MainFolder.Tensor_init (MainFolder.mkShape [2; 3; 4]) dtype device))
      = [12; 4; 1] /\
      MainFolder.strides_
        (MainFolder.compute_strides
           (MainFolder.Tensor_init (MainFolder.mkShape []) dtype device))
      = []) /\
  (forall t : Core.Tensor,
      (Core.shape t = [2; 3; 4] ->
       exists t', Core.compute_strides t = Ok t' /\
                  Core.stride t' = [12; 4; 1]) /\
      (Core.shape t = [] ->
       exists t', Core.compute_strides t = Ok t' /\ Core.stride t' = [])).
Proof.
  split; [| split; [| split; [| split]]].
  - intros t Hne ds sts. subst ds sts.
    rewrite MainFolder_compute_strides_spec by exact Hne.
    split; [now apply wrapped_suffix_products_law |].
    intros Hfit. rewrite fmap_size_wrap_small by exact Hfit.
    now apply suffix_products_law.
  - intros t t' Hne Hrun.
    apply Core_compute_strides_inv in Hrun as [-> _].
    split; [reflexivity |].
    unfold Core.shape, Core.stride, Core.set_stride.
    cbn [Core.shape_ Core.stride_ Core.strides].
    now apply suffix_products_law.
  - intros t Hpos Hfit. now rewrite Core_compute_strides_ok.
  - intros dtype device. split; reflexivity.
  - intros t. unfold Core.shape. split; intros Hshape.
    + rewrite Core_compute_strides_ok.
      * eexists. split; [reflexivity |].
        unfold Core.stride, Core.set_stride. cbn [Core.stride_ Core.strides].
        now rewrite Hshape.
      * rewrite Hshape. repeat constructor; lia.
      * rewrite Hshape. vm_compute. discriminate.
    + unfold Core.compute_strides. rewrite Hshape.
      eexists. split; reflexivity.
Qed.

Lemma C1_stride_law_witness :
  stride_law size_mul [2; 3; 4] [12; 4; 1] /\
  stride_law Z.mul [2; 3; 4] [12; 4; 1] /\
  (exists t', Core.compute_strides
                (Core.mkTensor (Core.mkShape [2; 3; 4]) (Core.mkStride [])
                   Core.Float32 Core.Device_default false false None) = Ok t' /\
              stride_law Z.mul [2; 3; 4] (Core.stride t')).
Proof.
  destruct C1_stride_law as (Hmain & Hcore & Hdef & _ & _).
  pose (t := MainFolder.Tensor_init (MainFolder.mkShape [2; 3; 4])
               MainFolder.Float32 (MainFolder.mkDevice MainFolder.CPU)).
  destruct (Hmain t ltac:(discriminate)) as [Hwrap Hexact].
  split; [exact Hwrap |]. split.
  - apply Hexact. repeat constructor; vm_compute; congruence.
  - pose (c := Core.mkTensor (Core.mkShape [2; 3; 4]) (Core.mkStride [])
                 Core.Float32 Core.Device_default false false None).
    assert (Hpos : Forall (fun d => 1 <= d) (Core.dims (Core.shape_ c)))
      by (repeat constructor; lia).
    assert (Hfit : prodZ (Core.dims (Core.shape_ c)) <= int32_max)
      by (vm_compute; discriminate).
    pose proof (Hdef c Hpos Hfit) as Hok.
    destruct (Core.compute_strides c) as [t'| |] eqn:Hrun; try discriminate.
    exists t'. split; [exact Hrun |].
    now destruct (Hcore c t' ltac:(discriminate) Hrun) as [-> Hlaw].
Defined.

(** ** Claim C2: the element count *)

(** C2, as stated, fails in [src/main_folder/tensor.h]: the allocate-only
    constructor accepts the shape [2^63+1, 2] and the tensor it returns
    reports [numel() = 2], while the product of the dimensions is
    [2^64 + 2]. *)
Lemma C2_counterexample :
  MainFolder.wf_shape (MainFolder.mkShape [9223372036854775809; 2]) /\
  exists t h,
    MainFolder.Tensor_alloc (MainFolder.mkShape [9223372036854775809; 2])
      MainFolder.Float32 (MainFolder.mkDevice MainFolder.CPU) (empty_heap 8)
    = Ok (t, h) /\
    MainFolder.dims (MainFolder.shape_ t) <> [] /\
    MainFolder.numel t = 2 /\
    prodZ (MainFolder.dims (MainFolder.shape_ t)) = 18446744073709551618 /\
    MainFolder.numel t <> prodZ (MainFolder.dims (MainFolder.shape_ t)).
Proof.
  split; [repeat constructor; unfold size_modulus; lia |].
  eexists. eexists. split; [vm_compute; reflexivity |].
  repeat split; discriminate.
Qed.

(** C2 (amended).  For every shape whose dims sequence is non-empty,
    [numel] is the product of all its dimensions reduced modulo [2^64]
    ([size_t] arithmetic), hence the product itself whenever that fits in
    [size_t]; in particular it is the product itself for a tensor that the
    constructor of [src/tensor.cpp] returns, whenever the product of the
    dimensions fits in [int32_t].  The shape [2,3,4] has 24 elements, and
    for the empty dims sequence [numel] is 0. *)
Theorem C2_numel :
  (forall t : MainFolder.Tensor,
      let ds := MainFolder.dims (MainFolder.shape_ t) in
      (ds <> [] -> MainFolder.numel t = size_wrap (prodZ ds)) /\
      (ds <> [] -> is_size_t (prodZ ds) -> MainFolder.numel t = prodZ ds) /\
      (ds = [2; 3; 4] -> MainFolder.numel t = 24) /\
      (ds = [] -> MainFolder.numel t = 0)) /\
  (forall t : Core.Tensor,
      let ds := Core.dims (Core.shape_ t) in
      (ds <> [] -> Core.numel t = size_wrap (prodZ ds)) /\
      (ds <> [] -> is_size_t (prodZ ds) -> Core.numel t = prodZ ds) /\
      (ds = [2; 3; 4] -> Core.numel t = 24) /\
      (ds = [] -> Core.numel t = 0)) /\
  (forall shape dtype device requires_grad h t h',
      Core.Tensor_new shape dtype device requires_grad h = Ok (t, h') ->
      prodZ (Core.dims shape) <= int32_max ->
      Core.shape t = Core.dims shape /\
      Core.shape t <> [] /\
      Core.numel t = prodZ (Core.shape t)).
Proof.
  split; [| split].
  - intros t ds. subst ds. repeat split.
    + apply MainFolder_numel_wrap.
    + intros Hne Hfit. rewrite MainFolder_numel_wrap by exact Hne.
      now apply size_wrap_small.
    + intros Hds. rewrite MainFolder_numel_wrap; rewrite Hds; [reflexivity |].
      discriminate.
    + intros Hds. unfold MainFolder.numel, MainFolder.compute_numel.
      now rewrite Hds.
  - intros t ds. subst ds. repeat split.
    + apply Core_numel_wrap.
    + intros Hne Hfit. rewrite Core_numel_wrap by exact Hne.
      now apply size_wrap_small.
    + intros Hds. rewrite Core_numel_wrap; rewrite Hds; [reflexivity |].
      discriminate.
    + intros Hds. unfold Core.numel. now rewrite Hds.
  - intros shape dtype device rg h t h' Hnew Hfit.
    destruct (Core_Tensor_new_exact _ _ _ _ _ _ _ Hnew Hfit)
      as (Hshape & Hne & _ & _ & _ & Hnumel & _).
    rewrite Hshape. repeat split; assumption.
Qed.

Lemma C2_numel_witness :
  MainFolder.numel
    (MainFolder.Tensor_init (MainFolder.mkShape [2; 3; 4]) MainFolder.Float32
       (MainFolder.mkDevice MainFolder.CPU)) = 24 /\
  (exists t h',
      Core.Tensor_new (Core.mkShape [2; 3; 4]) Core.Float32 Core.Device_default
        false (empty_heap 96) = Ok (t, h') /\
      Core.numel t = prodZ (Core.shape t)).
Proof.
  destruct C2_numel as (Hmain & _ & Hnew).
  split.
  - destruct (Hmain (MainFolder.Tensor_init (MainFolder.mkShape [2; 3; 4])
                       MainFolder.Float32 (MainFolder.mkDevice MainFolder.CPU)))
      as (_ & Hexact & _ & _).
    rewrite Hexact; [reflexivity | discriminate |].
    split; vm_compute; congruence.
  - destruct (Core.Tensor_new (Core.mkShape [2; 3; 4]) Core.Float32
                Core.Device_default false (empty_heap 96))
      as [[t h']| |] eqn:Hrun; [| vm_compute in Hrun; discriminate ..].
    exists t, h'. split; [reflexivity |].
    assert (Hfit : prodZ (Core.dims (Core.mkShape [2; 3; 4])) <= int32_max)
      by (vm_compute; discriminate).
    now destruct (Hnew _ _ _ _ _ _ _ Hrun Hfit) as (_ & _ & Hnumel).
Defined.

(** ** Claim C3: strides of constructed tensors *)

(** Whatever the flat-data constructor returns has a non-empty shape and no
    strides at all: the constructor never calls [compute_strides]. *)
Lemma MainFolder_Tensor_flat_strides T vec shape dtype device h t h' :
  MainFolder.Tensor_flat T vec shape dtype device h = Ok (t, h') ->
  MainFolder.shape_ t = shape /\
  MainFolder.dims (MainFolder.shape_ t) <> [] /\
  MainFolder.strides_ t = [].
Proof.
  unfold MainFolder.Tensor_flat.
  destruct (MainFolder.expected_size_loop _ 1) as [e| |]; try discriminate.
  cbn [mbind outcome_bind].
  destruct (negb _); [discriminate |].
  destruct (MainFolder.allocate_memory _ h) as [[t1 h1]| |] eqn:Halloc;
    try discriminate.
  cbn [mbind outcome_bind].
  destruct (memcpy _ _ _ _) as [h2| |]; try discriminate.
  intros [= <- <-].
  apply MainFolder_allocate_inv in Halloc as (l & Htotal & _ & ->).
  cbn [MainFolder.shape_ MainFolder.strides_ MainFolder.Tensor_init].
  repeat split. intros Hnil. apply Htotal.
  unfold MainFolder.compute_numel, MainFolder.Tensor_init.
  cbn [MainFolder.shape_]. now rewrite Hnil.
Qed.

(** The same holds for the constructor from nested data. *)
Lemma MainFolder_Tensor_nested_strides E n vec dtype device h t h' :
  MainFolder.Tensor_nested E n vec dtype device h = Ok (t, h') ->
  MainFolder.shape_ t = MainFolder.infer_shape (S (S n)) vec /\
  MainFolder.dims (MainFolder.shape_ t) <> [] /\
  MainFolder.strides_ t = [].
Proof.
  unfold MainFolder.Tensor_nested.
  destruct (MainFolder.allocate_memory _ h) as [[t1 h1]| |] eqn:Halloc;
    try discriminate.
  cbn [mbind outcome_bind].
  destruct (memcpy _ _ _ _) as [h2| |]; try discriminate.
  intros [= <- <-].
  apply MainFolder_allocate_inv in Halloc as (l & Htotal & _ & ->).
  cbn [MainFolder.shape_ MainFolder.strides_ MainFolder.Tensor_init].
  repeat split. intros Hnil. apply Htotal.
  unfold MainFolder.compute_numel, MainFolder.Tensor_init.
  cbn [MainFolder.shape_]. now rewrite Hnil.
Qed.

(** The allocate-only constructor computes them: its tensors satisfy the
    stride law in [size_t] arithmetic. *)
Lemma MainFolder_Tensor_alloc_strides shape dtype device h t h' :
  MainFolder.Tensor_alloc shape dtype device h = Ok (t, h') ->
  MainFolder.shape_ t = shape /\
  stride_law size_mul (MainFolder.dims (MainFolder.shape_ t))
                      (MainFolder.strides_ t).
Proof.
  unfold MainFolder.Tensor_alloc. intros Halloc.
  apply MainFolder_allocate_inv in Halloc as (l & Htotal & _ & ->).
  cbn [MainFolder.shape_ MainFolder.strides_].
  rewrite MainFolder_compute_strides_shape.
  cbn [MainFolder.shape_ MainFolder.Tensor_init]. split; [reflexivity |].
  assert (Hne : MainFolder.dims shape <> []).
  { intros Hnil. apply Htotal. unfold MainFolder.compute_numel.
    rewrite MainFolder_compute_strides_shape.
    cbn [MainFolder.shape_ MainFolder.Tensor_init]. now rewrite Hnil. }
  rewrite MainFolder_compute_strides_spec by exact Hne.
  now apply wrapped_suffix_products_law.
Qed.

(** So do the tensors of [src/tensor.cpp], over the integers. *)
Lemma Core_Tensor_new_strides shape dtype device rg h t h' :
  Core.Tensor_new shape dtype device rg h = Ok (t, h') ->
  Core.shape t = Core.dims shape /\
  stride_law Z.mul (Core.shape t) (Core.stride t).
Proof.
  intros Hnew.
  destruct (Core_Tensor_new_inv _ _ _ _ _ _ _ Hnew)
    as (Hne & _ & _ & sz & l & _ & _ & _ & ->).
  split; [reflexivity |]. now apply suffix_products_law.
Qed.

(** C3: the code breaks the claim.  The flat-data constructor and the
    nested-data constructor of [src/main_folder/tensor.h] return the tensor
    of shape [2,3] with an empty stride sequence; only the allocate-only
    constructor stores the strides [3,1]. *)
Theorem C3_strides_not_computed :
  (exists t h,
      MainFolder.Tensor_flat c_float floats_0_to_5 (MainFolder.mkShape [2; 3])
        MainFolder.Float32 (MainFolder.mkDevice MainFolder.CPU) (empty_heap 24)
      = Ok (t, h) /\
      MainFolder.dims (MainFolder.shape_ t) = [2; 3] /\
      MainFolder.strides_ t = [] /\
      ~ stride_law size_mul (MainFolder.dims (MainFolder.shape_ t))
                            (MainFolder.strides_ t)) /\
  (exists t h,
      MainFolder.Tensor_nested c_float 0
        [[0x00000000; 0x3F800000; 0x40000000];
         [0x40400000; 0x40800000; 0x40A00000]]
        MainFolder.Float32 (MainFolder.mkDevice MainFolder.CPU) (empty_heap 24)
      = Ok (t, h) /\
      MainFolder.dims (MainFolder.shape_ t) = [2; 3] /\
      MainFolder.strides_ t = [] /\
      ~ stride_law size_mul (MainFolder.dims (MainFolder.shape_ t))
                            (MainFolder.strides_ t)) /\
  (exists t h,
      MainFolder.Tensor_alloc (MainFolder.mkShape [2; 3])
        MainFolder.Float32 (MainFolder.mkDevice MainFolder.CPU) (empty_heap 24)
      = Ok (t, h) /\
      MainFolder.dims (MainFolder.shape_ t) = [2; 3] /\
      MainFolder.strides_ t = [3; 1]).
Proof.
  split; [| split].
  - eexists. eexists. split; [vm_compute; reflexivity |].
    repeat split. intros (Hlen & _). discriminate Hlen.
  - eexists. eexists. split; [vm_compute; reflexivity |].
    repeat split. intros (Hlen & _). discriminate Hlen.
  - eexists. eexists. split; [vm_compute; reflexivity |]. repeat split.
Qed.

(** ** Claim C4: construction errors *)

(** C4, as stated, fails in [src/main_folder/tensor.h]: the allocate-only
    constructor does not validate the shape, so the shapes [0,0,0] and []
    are rejected by the allocator with a [std::runtime_error], not with an
    invalid-argument error; the flat-data constructor given one element and
    the empty shape ends the same way. *)
Lemma C4_counterexample :
  MainFolder.Tensor_alloc (MainFolder.mkShape [0; 0; 0]) MainFolder.Float32
    (MainFolder.mkDevice MainFolder.CPU) (empty_heap 1024)
  = Throw (runtime_error "Cannot allocate zero-size tensor.") /\
  throws_invalid_argument
    (MainFolder.Tensor_alloc (MainFolder.mkShape [0; 0; 0]) MainFolder.Float32
       (MainFolder.mkDevice MainFolder.CPU) (empty_heap 1024)) = false /\
  throws_invalid_argument
    (MainFolder.Tensor_alloc (MainFolder.mkShape []) MainFolder.Float32
       (MainFolder.mkDevice MainFolder.CPU) (empty_heap 1024)) = false /\
  throws_invalid_argument
    (MainFolder.Tensor_flat c_float [0] (MainFolder.mkShape [])
       MainFolder.Float32 (MainFolder.mkDevice MainFolder.CPU)
       (empty_heap 1024)) = false.
Proof. repeat split. Qed.

(** C4 (amended).  Construction fails whenever the supplied shape is empty or
    contains a non-positive dimension.  The error is a
    [std::invalid_argument] from the constructor of [src/tensor.cpp] and,
    for a non-positive dimension, from the flat-data constructor; the
    allocate-only constructor of [src/main_folder/tensor.h] does not validate
    the shape and fails in the allocator with a [std::runtime_error]
    instead.  The flat-data constructor fails with a [std::invalid_argument]
    whenever the data length differs from the product of the declared
    dimensions, the product being taken in [size_t] (5 elements against the
    shape [2,3]); the data is never truncated or padded. *)
Theorem C4_construction_errors :
  (forall shape dtype device requires_grad h,
      Core.dims shape = [] \/ (exists d, d ∈ Core.dims shape /\ d <= 0) ->
      throws_invalid_argument
        (Core.Tensor_new shape dtype device requires_grad h) = true) /\
  (forall T vec shape dtype device h,
      (exists d, d ∈ MainFolder.dims shape /\ d <= 0) \/
      (Forall (fun d => 1 <= d) (MainFolder.dims shape) /\
       Z.of_nat (length vec) <> size_wrap (prodZ (MainFolder.dims shape))) ->
      throws_invalid_argument
        (MainFolder.Tensor_flat T vec shape dtype device h) = true) /\
  (forall T vec shape dtype device h,
      MainFolder.dims shape = [] ->
      is_ok (MainFolder.Tensor_flat T vec shape dtype device h) = false) /\
  (forall shape dtype device h,
      MainFolder.dims shape = [] \/ 0 ∈ MainFolder.dims shape ->
      throws_runtime_error
        (MainFolder.Tensor_alloc shape dtype device h) = true).
Proof.
  split; [| split; [| split]].
  - intros shape dtype device rg h [Hnil | (d & Hin & Hd)];
      unfold Core.Tensor_new; cbn [Core.shape_].
    + now rewrite Hnil.
    + destruct (Core.dims shape) as [|d0 ds] eqn:E; [reflexivity |].
      rewrite <- E, (Core_validate_dims_throws _ d) by (rewrite ?E; assumption).
      reflexivity.
  - intros T vec shape dtype device h [(d & Hin & Hd) | [Hpos Hlen]];
      unfold MainFolder.Tensor_flat.
    + now rewrite (MainFolder_expected_size_loop_throws _ d).
    + rewrite MainFolder_expected_size by exact Hpos.
      cbn [mbind outcome_bind].
      destruct (Z.eqb_spec (Z.of_nat (length vec))
                  (size_wrap (prodZ (MainFolder.dims shape))));
        [contradiction | reflexivity].
  - intros T vec shape dtype device h Hnil.
    unfold MainFolder.Tensor_flat. rewrite Hnil.
    cbn [MainFolder.expected_size_loop mbind outcome_bind].
    assert (Halloc : throws_runtime_error
                       (MainFolder.allocate_memory
                          (MainFolder.Tensor_init shape dtype device) h) = true).
    { apply MainFolder_allocate_zero, MainFolder_numel_zero. now left. }
    destruct (Z.of_nat (length vec) =? 1); cbn [negb]; [| reflexivity].
    destruct (MainFolder.allocate_memory _ h) as [[t1 h1]| |];
      [discriminate | reflexivity ..].
  - intros shape dtype device h Hshape. unfold MainFolder.Tensor_alloc.
    apply MainFolder_allocate_zero, MainFolder_numel_zero.
    now rewrite MainFolder_compute_strides_shape.
Qed.

Lemma C4_construction_errors_witness :
  throws_invalid_argument
    (Core.Tensor_new (Core.mkShape [0; 0; 0]) Core.Float32 Core.Device_default
       false (empty_heap 1024)) = true /\
  throws_invalid_argument
    (Core.Tensor_new (Core.mkShape []) Core.Float32 Core.Device_default
       false (empty_heap 1024)) = true /\
  throws_invalid_argument
    (MainFolder.Tensor_flat c_float [0; 1; 2; 3; 4] (MainFolder.mkShape [2; 3])
       MainFolder.Float32 (MainFolder.mkDevice MainFolder.CPU)
       (empty_heap 1024)) = true /\
  throws_invalid_argument
    (MainFolder.Tensor_flat c_float [0; 1; 2] (MainFolder.mkShape [0; 3])
       MainFolder.Float32 (MainFolder.mkDevice MainFolder.CPU)
       (empty_heap 1024)) = true /\
  is_ok
    (MainFolder.Tensor_flat c_float [0] (MainFolder.mkShape [])
       MainFolder.Float32 (MainFolder.mkDevice MainFolder.CPU)
       (empty_heap 1024)) = false /\
  throws_runtime_error
    (MainFolder.Tensor_alloc (MainFolder.mkShape []) MainFolder.Float32
       (MainFolder.mkDevice MainFolder.CPU) (empty_heap 1024)) = true.
Proof.
  destruct C4_construction_errors as (Hcore & Hflat & Hflat_empty & Halloc).
  refine (conj _ (conj _ (conj _ (conj _ (conj _ _))))).
  - apply Hcore. right. exists 0. split; [constructor | lia].
  - apply Hcore. left. reflexivity.
  - apply Hflat. right. split; [repeat constructor; lia |].
    vm_compute. discriminate.
  - apply Hflat. left. exists 0. split; [constructor | lia].
  - apply Hflat_empty. reflexivity.
  - apply Halloc. left. reflexivity.
Defined.

(** ** Claim C5: reading flat data back *)

(** C5: the code breaks the claim.  The tensor built from the flat data
    [[0,1,2,3,4,5]] and the shape [2,3] holds the data in row-major order
    (element [i*3 + j] is the flat value at [i*3 + j]), but it has no strides:
    [stride[0]] and [stride[1]] do not exist, so the offset
    [i*stride[0] + j*stride[1]] cannot be formed.  With the strides that
    [compute_strides] would have stored, [3,1], the offsets are [i*3 + j]. *)
Theorem C5_round_trip_without_strides :
  exists t h,
    MainFolder.Tensor_flat c_float floats_0_to_5 (MainFolder.mkShape [2; 3])
      MainFolder.Float32 (MainFolder.mkDevice MainFolder.CPU) (empty_heap 24)
    = Ok (t, h) /\
    MainFolder.strides_ t !! 0%nat = None /\
    MainFolder.strides_ t !! 1%nat = None /\
    MainFolder.strides_ (MainFolder.compute_strides t) = [3; 1] /\
    flat_map (fun i => map (fun j => load c_float h (MainFolder.data t)
                                          (i * 3 + j))
                           [0; 1; 2]%nat)
             [0; 1]%nat
    = map Ok floats_0_to_5.
Proof.
  eexists. eexists. split; [vm_compute; reflexivity |].
  repeat split.
Qed.

(** ** Claim C6: shape inference from nested data *)

(** C6.  The shape inferred from a non-empty nested sequence is the length
    of the outer sequence followed by the shape inferred from its first
    element, whatever its siblings are; a scalar infers the empty shape and
    an empty outer sequence infers the shape [0]. *)
Theorem C6_infer_shape :
  (forall x : MainFolder.nvec 0,
      MainFolder.infer_shape 0 x = MainFolder.mkShape []) /\
  (forall n, MainFolder.infer_shape (S n) [] = MainFolder.mkShape [0]) /\
  (forall n (v0 : MainFolder.nvec n) (siblings : list (MainFolder.nvec n)),
      MainFolder.dims (MainFolder.infer_shape (S n) (v0 :: siblings))
      = Z.of_nat (length (v0 :: siblings))
          :: MainFolder.dims (MainFolder.infer_shape n v0)) /\
  (forall n (v0 : MainFolder.nvec n) (siblings siblings' : list (MainFolder.nvec n)),
      length siblings = length siblings' ->
      MainFolder.infer_shape (S n) (v0 :: siblings)
      = MainFolder.infer_shape (S n) (v0 :: siblings')).
Proof.
  repeat split.
  intros n v0 siblings siblings' Hlen.
  exact (f_equal
           (fun k => MainFolder.mkShape
                       ([Z.of_nat (S k)]
                        ++ MainFolder.dims (MainFolder.infer_shape n v0)))
           Hlen).
Qed.

Lemma C6_infer_shape_witness :
  MainFolder.infer_shape 2 [[1; 2; 3]; [4]]
  = MainFolder.infer_shape 2 [[1; 2; 3]; [4; 5; 6]] /\
  MainFolder.dims (MainFolder.infer_shape 2 [[1; 2; 3]; [4]]) = [2; 3].
Proof.
  destruct C6_infer_shape as (_ & _ & Hcons & Hsiblings).
  split.
  - apply (Hsiblings 1%nat [1; 2; 3] [[4]] [[4; 5; 6]]). reflexivity.
  - exact (Hcons 1%nat [1; 2; 3] [[4]]).
Defined.

(** ** Claim C7: the byte count *)

Lemma Core_dtype_size_unrecognized d :
  d ∉ Core.Dtype_enumerators ->
  Core.dtype_size d = Throw (invalid_argument "Unsupported Dtype").
Proof.
  unfold Core.Dtype_enumerators. rewrite !not_elem_of_cons.
  intros (? & ? & ? & ? & ? & ? & ? & _). unfold Core.dtype_size.
  repeat match goal with
         | |- context [d =? ?c] => destruct (Z.eqb_spec d c); [congruence |]
         end.
  reflexivity.
Qed.

Lemma Core_dtype_size_inv d sz :
  Core.dtype_size d = Ok sz ->
  d ∈ Core.Dtype_enumerators /\ (sz = 2 \/ sz = 4 \/ sz = 8).
Proof.
  unfold Core.dtype_size, Core.Dtype_enumerators.
  repeat match goal with
         | |- context [d =? ?c] =>
             destruct (Z.eqb_spec d c) as [-> | ?];
             [intros [= <-]; split; [set_solver | lia] |]
         end.
  discriminate.
Qed.

(** C7.  For every tensor the constructor returns, and for a
    default-constructed tensor whose dtype is recognised, [nbytes()] is
    [numel()] times the byte width of its dtype, the product being the one
    of [size_t] that the source computes; it is the product over the
    integers whenever the product of the dimensions fits in [int32_t].  The
    width is 2 for Int16, Bfloat16 and Float16, 4 for Int32 and Float32, 8
    for Int64 and Float64; any other dtype value makes [dtype_size], and so
    [nbytes()], throw, and no dtype has width 0.  For the shape [2,3] and
    Float32, [nbytes()] is 24. *)
Theorem C7_nbytes :
  (forall shape dtype device requires_grad h t h',
      Core.Tensor_new shape dtype device requires_grad h = Ok (t, h') ->
      exists sz,
        Core.dtype_size (Core.dtype t) = Ok sz /\
        Core.nbytes t = Ok (size_mul (Core.numel t) sz) /\
        (prodZ (Core.dims shape) <= int32_max ->
         Core.nbytes t = Ok (Core.numel t * sz))) /\
  (forall d sz,
      Core.dtype_size d = Ok sz ->
      Core.nbytes (Core.Tensor_default d)
      = Ok (Core.numel (Core.Tensor_default d) * sz)) /\
  (forall (t : Core.Tensor) sz,
      Core.dtype_size (Core.dtype t) = Ok sz ->
      Core.nbytes t = Ok (size_mul (Core.numel t) sz)) /\
  (Core.dtype_size Core.Int16 = Ok 2 /\
   Core.dtype_size Core.Bfloat16 = Ok 2 /\
   Core.dtype_size Core.Float16 = Ok 2 /\
   Core.dtype_size Core.Int32 = Ok 4 /\
   Core.dtype_size Core.Float32 = Ok 4 /\
   Core.dtype_size Core.Int64 = Ok 8 /\
   Core.dtype_size Core.Float64 = Ok 8) /\
  (forall d,
      d ∉ Core.Dtype_enumerators ->
      Core.dtype_size d = Throw (invalid_argument "Unsupported Dtype") /\
      forall t, Core.dtype t = d ->
                Core.nbytes t = Throw (invalid_argument "Unsupported Dtype")) /\
  (forall d, Core.dtype_size d <> Ok 0) /\
  (forall t : Core.Tensor,
      Core.shape t = [2; 3] -> Core.dtype t = Core.Float32 ->
      Core.nbytes t = Ok 24).
Proof.
  split; [| split; [| split; [| split; [| split; [| split]]]]].
  - intros shape dtype device rg h t h' Hnew.
    destruct (Core_Tensor_new_inv _ _ _ _ _ _ _ Hnew)
      as (_ & _ & _ & sz & l & Hsz & _ & _ & Ht).
    exists sz. assert (Hdt : Core.dtype t = dtype) by now subst t.
    rewrite Hdt.
    assert (Hbytes : Core.nbytes t = Ok (size_mul (Core.numel t) sz)).
    { unfold Core.nbytes. replace (Core.dtype_ t) with dtype by now subst t.
      now rewrite Hsz. }
    split; [exact Hsz |]. split; [exact Hbytes |].
    intros Hfit. rewrite Hbytes. f_equal.
    destruct (Core_Tensor_new_exact _ _ _ _ _ _ _ Hnew Hfit)
      as (_ & _ & _ & _ & _ & Hnumel & Hprod).
    apply Core_dtype_size_inv in Hsz as [_ Hsz].
    apply size_wrap_small. rewrite Hnumel.
    unfold is_size_t, size_modulus, int32_max in *. lia.
  - intros d sz Hsz. unfold Core.nbytes.
    cbn [Core.Tensor_default Core.dtype_]. rewrite Hsz. reflexivity.
  - intros t sz Hsz. unfold Core.nbytes. unfold Core.dtype in Hsz.
    now rewrite Hsz.
  - repeat split.
  - intros d Hd. pose proof (Core_dtype_size_unrecognized d Hd) as Hthrow.
    split; [exact Hthrow |].
    intros t <-. unfold Core.nbytes. unfold Core.dtype in Hthrow.
    now rewrite Hthrow.
  - intros d Hd. apply Core_dtype_size_inv in Hd as [_ Hd]. lia.
  - intros t Hshape Hdtype. unfold Core.nbytes, Core.numel.
    unfold Core.shape in Hshape. unfold Core.dtype in Hdtype.
    now rewrite Hshape, Hdtype.
Qed.

Lemma C7_nbytes_witness :
  exists t h',
    Core.Tensor_new (Core.mkShape [2; 3]) Core.Float32 Core.Device_default
      false (empty_heap 24) = Ok (t, h') /\
    Core.nbytes t = Ok (Core.numel t * 4) /\
    Core.nbytes t = Ok 24 /\
    Core.dtype_size 7 = Throw (invalid_argument "Unsupported Dtype").
Proof.
  destruct C7_nbytes as (Hnew & _ & _ & _ & Hbad & _ & Hex).
  destruct (Core.Tensor_new (Core.mkShape [2; 3]) Core.Float32
              Core.Device_default false (empty_heap 24))
    as [[t h']| |] eqn:Hrun; [| vm_compute in Hrun; discriminate ..].
  exists t, h'. split; [reflexivity |].
  destruct (Hnew _ _ _ _ _ _ _ Hrun) as (sz & Hsz & _ & Hexact).
  assert (Hfit : prodZ (Core.dims (Core.mkShape [2; 3])) <= int32_max)
    by (vm_compute; discriminate).
  specialize (Hexact Hfit).
  assert (Ht : Core.shape t = [2; 3] /\ Core.dtype t = Core.Float32).
  { vm_compute in Hrun. injection Hrun as <- _. split; reflexivity. }
  destruct Ht as [Hshape Hdtype].
  rewrite Hdtype in Hsz. injection Hsz as <-.
  split; [exact Hexact |]. split; [now apply Hex |].
  apply (Hbad 7). unfold Core.Dtype_enumerators. rewrite !not_elem_of_cons.
  repeat split; try discriminate. apply not_elem_of_nil.
Defined.

(** ** Claim C8: the [zeros] and [ones] factories *)

(** C8, as stated, fails: the byte count [numel() * 4] is a [size_t] and
    wraps.  The shape [2^62 + 1] is valid and asks for 4 bytes; [zeros] and
    [ones] allocate them, fill the one element of the buffer and return a
    tensor whose [numel()] is [2^62 + 1]: the element number 1 is past the
    end of the buffer, it holds no zero and no one.  For the valid shape
    [2^62] the byte count wraps to 0 and the factories throw. *)
Lemma C8_counterexample :
  MainFolder.wf_shape (MainFolder.mkShape [4611686018427387905]) /\
  Forall (fun d => 1 <= d)
         (MainFolder.dims (MainFolder.mkShape [4611686018427387905])) /\
  (exists t h',
      MainFolder.zeros (MainFolder.mkShape [4611686018427387905])
        MainFolder.Float32 (MainFolder.mkDevice MainFolder.CPU) (empty_heap 8)
      = Ok (t, h') /\
      MainFolder.numel t = 4611686018427387905 /\
      load c_float h' (MainFolder.data t) 0 = Ok MainFolder.float_zero /\
      load c_float h' (MainFolder.data t) 1
      = Undefined "read past the end of the buffer") /\
  (exists t h',
      MainFolder.ones (MainFolder.mkShape [4611686018427387905])
        MainFolder.Int32 (MainFolder.mkDevice MainFolder.CPU) (empty_heap 8)
      = Ok (t, h') /\
      MainFolder.numel t = 4611686018427387905 /\
      load c_int h' (MainFolder.data t) 0 = Ok MainFolder.int_one /\
      load c_int h' (MainFolder.data t) 1
      = Undefined "read past the end of the buffer") /\
  MainFolder.zeros (MainFolder.mkShape [4611686018427387904])
    MainFolder.Float32 (MainFolder.mkDevice MainFolder.CPU) (empty_heap 8)
  = Throw (runtime_error "Cannot allocate zero-size tensor.").
Proof.
  split; [repeat constructor; unfold size_modulus; lia |].
  split; [repeat constructor; lia |].
  split; [| split].
  - eexists. eexists. split; [vm_compute; reflexivity |].
    repeat split; vm_compute; reflexivity.
  - eexists. eexists. split; [vm_compute; reflexivity |].
    repeat split; vm_compute; reflexivity.
  - vm_compute. reflexivity.
Qed.

(** C8 (amended).  For every valid shape (non-empty, all dimensions
    positive) whose byte count, four times the product of the dimensions,
    fits in [size_t]: when the free store can supply the bytes, [zeros]
    returns a tensor of that shape in which each of the [numel()] elements is
    the dtype's zero, and [ones] one in which each element is the dtype's
    one, for Float32 and for Int32; when it cannot, both throw
    [std::bad_alloc]. *)
Theorem C8_zeros_ones shape dtype h :
  MainFolder.dims shape <> [] ->
  Forall (fun d => 1 <= d) (MainFolder.dims shape) ->
  dtype = MainFolder.Float32 \/ dtype = MainFolder.Int32 ->
  4 * prodZ (MainFolder.dims shape) < size_modulus ->
  (4 * prodZ (MainFolder.dims shape) <= avail h ->
   (exists t h',
       MainFolder.zeros shape dtype (MainFolder.mkDevice MainFolder.CPU) h
       = Ok (t, h') /\
       MainFolder.shape_ t = shape /\
       MainFolder.numel t = prodZ (MainFolder.dims shape) /\
       forall k, Z.of_nat k < MainFolder.numel t ->
                 load (MainFolder.dtype_ctype dtype) h' (MainFolder.data t) k
                 = Ok (MainFolder.dtype_zero dtype)) /\
   (exists t h',
       MainFolder.ones shape dtype (MainFolder.mkDevice MainFolder.CPU) h
       = Ok (t, h') /\
       MainFolder.shape_ t = shape /\
       MainFolder.numel t = prodZ (MainFolder.dims shape) /\
       forall k, Z.of_nat k < MainFolder.numel t ->
                 load (MainFolder.dtype_ctype dtype) h' (MainFolder.data t) k
                 = Ok (MainFolder.dtype_one dtype))) /\
  (avail h < 4 * prodZ (MainFolder.dims shape) ->
   MainFolder.zeros shape dtype (MainFolder.mkDevice MainFolder.CPU) h
   = Throw bad_alloc /\
   MainFolder.ones shape dtype (MainFolder.mkDevice MainFolder.CPU) h
   = Throw bad_alloc).
Proof.
  intros Hne Hpos Hdtype Hsmall.
  pose proof (prodZ_pos _ Hpos) as Hprod.
  assert (Hcount : size_wrap (prodZ (MainFolder.dims shape))
                   = prodZ (MainFolder.dims shape))
    by (apply size_wrap_small; unfold is_size_t; lia).
  assert (Htotal : size_mul (size_wrap (prodZ (MainFolder.dims shape))) 4
                   = 4 * prodZ (MainFolder.dims shape)).
  { rewrite Hcount. unfold size_mul. rewrite Z.mul_comm.
    apply size_wrap_small. unfold is_size_t. lia. }
  assert (HT : sizeof (MainFolder.dtype_ctype dtype) = 4)
    by (destruct Hdtype as [-> | ->]; reflexivity).
  split.
  - intros Hmem.
    assert (Hfilled : forall v,
      stored_value (MainFolder.dtype_ctype dtype) v = v ->
      exists t h1 h2,
        MainFolder.Tensor_alloc shape dtype (MainFolder.mkDevice MainFolder.CPU) h
        = Ok (t, h1) /\
        MainFolder.shape_ t = shape /\
        MainFolder.numel t = prodZ (MainFolder.dims shape) /\
        fill (MainFolder.dtype_ctype dtype) (MainFolder.data t) 0
             (Z.to_nat (range_length (MainFolder.dtype_ctype dtype)
                                     (MainFolder.numel t))) v h1 = Ok h2 /\
        forall k, Z.of_nat k < MainFolder.numel t ->
                  load (MainFolder.dtype_ctype dtype) h2 (MainFolder.data t) k
                  = Ok v).
    { intros v Hv.
      destruct (MainFolder_alloc_fill shape dtype h
                  (MainFolder.dtype_ctype dtype) v Hne Hdtype HT)
        as (t & h1 & h2 & Halloc & Hshape & Hnumel & Hfill & Hload & _);
        [rewrite Htotal; lia |].
      rewrite Hcount in Hnumel.
      exists t, h1, h2. repeat split; try assumption.
      intros k Hk. rewrite <- Hv. apply Hload.
      rewrite range_length_small; [exact Hk | lia | rewrite HT; lia]. }
    split.
    + destruct (Hfilled (MainFolder.dtype_zero dtype))
        as (t & h1 & h2 & Halloc & Hshape & Hnumel & Hfill & Hload);
        [destruct Hdtype as [-> | ->]; reflexivity |].
      exists t, h2. unfold MainFolder.zeros. rewrite Halloc.
      cbn [mbind outcome_bind].
      destruct Hdtype as [-> | ->]; cbn in Hfill |- *; rewrite Hfill;
        repeat split; assumption.
    + destruct (Hfilled (MainFolder.dtype_one dtype))
        as (t & h1 & h2 & Halloc & Hshape & Hnumel & Hfill & Hload);
        [destruct Hdtype as [-> | ->]; reflexivity |].
      exists t, h2. unfold MainFolder.ones. rewrite Halloc.
      cbn [mbind outcome_bind].
      destruct Hdtype as [-> | ->]; cbn in Hfill |- *; rewrite Hfill;
        repeat split; assumption.
  - intros Hmem.
    assert (Halloc : MainFolder.Tensor_alloc shape dtype
                       (MainFolder.mkDevice MainFolder.CPU) h
                     = Throw bad_alloc)
      by (apply MainFolder_alloc_bad_alloc; (assumption || rewrite Htotal; lia)).
    unfold MainFolder.zeros, MainFolder.ones. rewrite Halloc.
    split; reflexivity.
Qed.

Lemma C8_zeros_ones_witness :
  (exists t h',
      MainFolder.zeros (MainFolder.mkShape [2; 3]) MainFolder.Float32
        (MainFolder.mkDevice MainFolder.CPU) (empty_heap 24) = Ok (t, h') /\
      forall k, (k < 6)%nat ->
                load c_float h' (MainFolder.data t) k = Ok MainFolder.float_zero) /\
  (exists t h',
      MainFolder.ones (MainFolder.mkShape [2; 3]) MainFolder.Int32
        (MainFolder.mkDevice MainFolder.CPU) (empty_heap 24) = Ok (t, h') /\
      forall k, (k < 6)%nat ->
                load c_int h' (MainFolder.data t) k = Ok MainFolder.int_one) /\
  MainFolder.zeros (MainFolder.mkShape [2; 3]) MainFolder.Float32
    (MainFolder.mkDevice MainFolder.CPU) (empty_heap 23) = Throw bad_alloc.
Proof.
  assert (Hne : MainFolder.dims (MainFolder.mkShape [2; 3]) <> [])
    by discriminate.
  assert (Hpos : Forall (fun d => 1 <= d)
                        (MainFolder.dims (MainFolder.mkShape [2; 3])))
    by (repeat constructor; lia).
  assert (Hsmall : 4 * prodZ (MainFolder.dims (MainFolder.mkShape [2; 3]))
                   < size_modulus) by reflexivity.
  assert (Hmem : 4 * prodZ (MainFolder.dims (MainFolder.mkShape [2; 3]))
                 <= avail (empty_heap 24)) by (vm_compute; discriminate).
  assert (Hless : avail (empty_heap 23)
                  < 4 * prodZ (MainFolder.dims (MainFolder.mkShape [2; 3])))
    by reflexivity.
  refine (conj _ (conj _ _)).
  - destruct (proj1 (C8_zeros_ones (MainFolder.mkShape [2; 3])
                       MainFolder.Float32 (empty_heap 24) Hne Hpos
                       (or_introl eq_refl) Hsmall) Hmem)
      as [(t & h' & Hrun & _ & Hnumel & Hload) _].
    exists t, h'. split; [exact Hrun |].
    intros k Hk. apply Hload. rewrite Hnumel. cbn. lia.
  - destruct (proj1 (C8_zeros_ones (MainFolder.mkShape [2; 3])
                       MainFolder.Int32 (empty_heap 24) Hne Hpos
                       (or_intror eq_refl) Hsmall) Hmem)
      as [_ (t & h' & Hrun & _ & Hnumel & Hload)].
    exists t, h'. split; [exact Hrun |].
    intros k Hk. apply Hload. rewrite Hnumel. cbn. lia.
  - exact (proj1 (proj2 (C8_zeros_ones (MainFolder.mkShape [2; 3])
                           MainFolder.Float32 (empty_heap 23) Hne Hpos
                           (or_introl eq_refl) Hsmall) Hless)).
Defined.

(** ** Claim C9: copies share the buffer *)

Lemma share_lookup l h b :
  blocks h !! l = Some b ->
  blocks (share (Some l) h) !! l = Some (Block (bytes b) (S (use_count b))) /\
  (forall l', l' <> l -> blocks (share (Some l) h) !! l' = blocks h !! l') /\
  dom (blocks (share (Some l) h)) = dom (blocks h) /\
  avail (share (Some l) h) = avail h.
Proof.
  intros Hb. cbn [share blocks avail]. repeat split.
  - now rewrite lookup_alter_eq, Hb.
  - intros l' Hne. now rewrite lookup_alter_ne.
  - apply set_eq. intros l'. now rewrite dom_alter.
Qed.

(** C9.  The copy of a tensor has the same metadata and the same buffer
    address; copying allocates nothing and changes no byte, it only adds an
    owner to the block.  An element written through the copy's [data<T>()]
    is the element read through the original's. *)
Theorem C9_copy_shares_buffer (t : Core.Tensor) (h : heap) l b T k v :
  Core.data t = Some l ->
  blocks h !! l = Some b ->
  ((k + 1) * Z.to_nat (sizeof T) <= length (bytes b))%nat ->
  let c := fst (Core.Tensor_copy t h) in
  let h1 := snd (Core.Tensor_copy t h) in
  c = t /\
  Core.data c = Core.data t /\
  dom (blocks h1) = dom (blocks h) /\
  avail h1 = avail h /\
  blocks h1 !! l = Some (Block (bytes b) (S (use_count b))) /\
  exists h2,
    store T h1 (Core.data c) k v = Ok h2 /\
    load T h2 (Core.data t) k = Ok (stored_value T v) /\
    load T h2 (Core.data c) k = Ok (stored_value T v).
Proof.
  intros Hdata Hb Hfit c h1. subst c h1.
  unfold Core.Tensor_copy. cbn [fst snd].
  unfold Core.data in *. rewrite Hdata.
  destruct (share_lookup l h b Hb) as (Hshared & _ & Hdom & Havail).
  repeat split; try assumption.
  pose proof (store_ok T (share (Some l) h) l _ k v Hshared Hfit) as Hstore.
  eexists. split; [exact Hstore |].
  split; exact (load_store_eq T _ l _ k v _ Hshared Hstore).
Qed.

Lemma C9_copy_shares_buffer_witness :
  exists t h,
    Core.Tensor_new (Core.mkShape [2; 3]) Core.Float32 Core.Device_default
      false (empty_heap 24) = Ok (t, h) /\
    let c := fst (Core.Tensor_copy t h) in
    let h1 := snd (Core.Tensor_copy t h) in
    exists h2,
      store c_float h1 (Core.data c) 4 0x3F800000 = Ok h2 /\
      load c_float h2 (Core.data t) 4 = Ok 0x3F800000.
Proof.
  eexists. eexists. split; [vm_compute; reflexivity |].
  match goal with
  | |- let c := fst (Core.Tensor_copy ?t ?h) in _ =>
      destruct (C9_copy_shares_buffer t h 1%positive
                  (Block (replicate 24 None) 1) c_float 4 0x3F800000
                  eq_refl eq_refl)
        as (_ & _ & _ & _ & _ & h2 & Hstore & Hload & _)
  end.
  - vm_compute. lia.
  - exists h2. split; [exact Hstore | exact Hload].
Defined.

(** Destroying the copy gives the owner back: the block, its bytes and the
    free store are as before the copy. *)
Lemma Core_copy_destroy (t : Core.Tensor) (h : heap) l b :
  Core.data t = Some l ->
  blocks h !! l = Some b ->
  (0 < use_count b)%nat ->
  let c := fst (Core.Tensor_copy t h) in
  let h1 := snd (Core.Tensor_copy t h) in
  blocks (Core.Tensor_destroy c h1) = blocks h /\
  avail (Core.Tensor_destroy c h1) = avail h.
Proof.
  intros Hdata Hb Hlive c h1. subst c h1.
  unfold Core.Tensor_copy, Core.Tensor_destroy. cbn [fst snd].
  unfold Core.data in Hdata. rewrite Hdata.
  destruct (share_lookup l h b Hb) as (Hshared & Hother & _ & Havail).
  unfold release. rewrite Hshared. cbn [use_count bytes].
  destruct (use_count b) as [|n] eqn:Hn; [lia |].
  cbn [blocks avail]. split; [| reflexivity].
  apply map_eq. intros l'. destruct (decide (l' = l)) as [-> | Hne].
  - rewrite lookup_insert_eq, Hb. destruct b as [bs u]. cbn in *. now subst u.
  - rewrite lookup_insert_ne by congruence. now apply Hother.
Qed.

(** ** Claim C10: the default-constructed tensor *)

(** C10: the code breaks the claim.  A default-constructed tensor has an
    empty shape, an empty stride, no buffer, [numel() = 0] and
    [is_owner() = false], whatever its indeterminate [dtype_] holds.  But
    [nbytes()] evaluates [dtype_size(dtype_)]: it is [0] when [dtype_] holds
    one of the seven enumerators (as after value-initialisation), and it
    throws when the storage held anything else, such as [7]. *)
Theorem C10_default_tensor :
  (forall d,
      Core.shape (Core.Tensor_default d) = [] /\
      Core.stride (Core.Tensor_default d) = [] /\
      Core.data (Core.Tensor_default d) = None /\
      Core.numel (Core.Tensor_default d) = 0 /\
      Core.is_owner (Core.Tensor_default d) = false) /\
  Forall (fun d => Core.nbytes (Core.Tensor_default d) = Ok 0)
         Core.Dtype_enumerators /\
  Core.nbytes Core.Tensor_value_initialized = Ok 0 /\
  Core.nbytes (Core.Tensor_default 7)
  = Throw (invalid_argument "Unsupported Dtype").
Proof.
  split; [intros d; repeat split |].
  split; [repeat constructor |].
  split; reflexivity.
Qed.

(** Every tensor that the allocating constructor returns has at least one
    element: zero-size tensors only exist as default-constructed values. *)
Lemma Core_Tensor_new_not_empty shape dtype device rg h t h' :
  Core.Tensor_new shape dtype device rg h = Ok (t, h') ->
  Core.shape t <> [] /\ 1 <= Core.numel t /\ Core.is_owner t = true.
Proof.
  intros Hnew.
  destruct (Core_Tensor_new_inv _ _ _ _ _ _ _ Hnew)
    as (Hne & Hpos & Hfit & sz & l & _ & _ & _ & Ht).
  subst t. repeat split; [exact Hne |].
  rewrite Core_numel_wrap by exact Hne. cbn [Core.shape_].
  pose proof (prodZ_pos _ Hpos).
  rewrite size_wrap_small; [lia |].
  unfold is_size_t, size_modulus, int32_max in *. lia.
Qed.

(** * Further properties of the code *)

(** ** Flattening nested data *)

Lemma flatten_recursive_app n : forall (value : MainFolder.nvec n) out,
  MainFolder.flatten_recursive n value out = out ++ MainFolder.flatten n value.
Proof.
  induction n as [|m IH]; intros value out; [reflexivity |].
  unfold MainFolder.flatten. cbn [MainFolder.flatten_recursive].
  assert (Hfold : forall (vs : list (MainFolder.nvec m)) acc,
             fold_left (fun acc v => MainFolder.flatten_recursive m v acc) vs acc
             = acc ++ concat (map (MainFolder.flatten m) vs)).
  { induction vs as [|v vs IHvs]; intros acc; cbn [fold_left map concat].
    - now rewrite app_nil_r.
    - rewrite IHvs, IH, <- app_assoc. reflexivity. }
  now rewrite !Hfold.
Qed.

Lemma flatten_cons n (vec : list (MainFolder.nvec n)) :
  MainFolder.flatten (S n) vec = concat (map (MainFolder.flatten n) vec).
Proof.
  unfold MainFolder.flatten at 1. cbn [MainFolder.flatten_recursive].
  induction vec as [|v vs IHvs] using rev_ind; [reflexivity |].
  rewrite fold_left_app. cbn [fold_left].
  rewrite flatten_recursive_app, IHvs, map_app, concat_app.
  cbn [map concat]. now rewrite app_nil_r.
Qed.

Lemma flatten_rows (rows : list (list Z)) :
  MainFolder.flatten 2 rows = concat rows.
Proof.
  transitivity (concat (map (MainFolder.flatten 1) rows));
    [exact (flatten_cons 1%nat rows) | f_equal].
  induction rows as [|r rows IH]; [reflexivity |].
  cbn [map]. rewrite IH. f_equal.
  transitivity (concat (map (MainFolder.flatten 0) r));
    [exact (flatten_cons 0%nat r) |].
  clear. induction r as [|x r IH]; [reflexivity |].
  cbn [map concat]. rewrite IH. reflexivity.
Qed.

(** X1.  [flatten] lists the scalars depth first, in row-major order: the
    flattening of a vector is the concatenation of the flattenings of its
    elements, a scalar flattens to itself, and a vector of rows flattens to
    the rows one after the other. *)
Theorem flatten_row_major :
  (forall x : MainFolder.nvec 0, MainFolder.flatten 0 x = [x]) /\
  (forall n (vec : list (MainFolder.nvec n)),
      MainFolder.flatten (S n) vec = concat (map (MainFolder.flatten n) vec)) /\
  (forall rows : list (list Z), MainFolder.flatten 2 rows = concat rows).
Proof.
  split; [reflexivity |]. split; [exact flatten_cons | exact flatten_rows].
Qed.

Lemma regularb_cons n (v0 : MainFolder.nvec n) (rest : list (MainFolder.nvec n)) :
  regularb (S n) (v0 :: rest) = true ->
  Forall (fun v => regularb n v = true /\
                   MainFolder.dims (MainFolder.infer_shape n v)
                   = MainFolder.dims (MainFolder.infer_shape n v0))
         (v0 :: rest).
Proof.
  cbn [regularb]. intros H. apply Forall_forall. intros v Hv.
  rewrite forallb_forall in H. specialize (H v).
  rewrite <- list_elem_of_In in H. specialize (H Hv).
  apply andb_prop in H as [Hr Hs]. split; [exact Hr |].
  now apply bool_decide_eq_true in Hs.
Qed.

(** X2.  For regular nested data the number of scalars [flatten] yields is
    the product of the dimensions [infer_shape] infers. *)
Theorem flatten_length_regular n : forall vec : MainFolder.nvec n,
  regularb n vec = true ->
  Z.of_nat (length (MainFolder.flatten n vec))
  = prodZ (MainFolder.dims (MainFolder.infer_shape n vec)).
Proof.
  induction n as [|m IH]; intros vec Hreg; [reflexivity |].
  rewrite (flatten_cons m vec).
  destruct vec as [|v0 rest]; [reflexivity |].
  pose proof (regularb_cons m v0 rest Hreg) as Hall.
  cbn [MainFolder.infer_shape MainFolder.dims app prodZ].
  assert (Hlen : forall vs : list (MainFolder.nvec m),
             Forall (fun v => regularb m v = true /\
                              MainFolder.dims (MainFolder.infer_shape m v)
                              = MainFolder.dims (MainFolder.infer_shape m v0)) vs ->
             Z.of_nat (length (concat (map (MainFolder.flatten m) vs)))
             = Z.of_nat (length vs)
               * prodZ (MainFolder.dims (MainFolder.infer_shape m v0))).
  { induction 1 as [|v vs [Hr Hs] _ IHvs]; [reflexivity |].
    cbn [map concat length]. rewrite length_app, Nat2Z.inj_add, IHvs.
    rewrite (IH v Hr), Hs. lia. }
  exact (Hlen (v0 :: rest) Hall).
Qed.

Lemma flatten_length_regular_witness :
  Z.of_nat (length (MainFolder.flatten 2 [[1; 2; 3]; [4; 5; 6]]))
  = prodZ (MainFolder.dims (MainFolder.infer_shape 2 [[1; 2; 3]; [4; 5; 6]])).
Proof.
  apply (flatten_length_regular 2 [[1; 2; 3]; [4; 5; 6]]). reflexivity.
Defined.


(** ** Offsets and multi-indices under row-major strides *)

Lemma offset_unravel ds i :
  Forall (fun d => 1 <= d) ds ->
  offset (suffix_products ds) (unravel i (suffix_products ds) ds)
  = i mod prodZ ds.
Proof.
  induction 1 as [|d ds Hd Hpos IH].
  - cbn. now rewrite Z.mod_1_r.
  - cbn [suffix_products unravel offset prodZ]. rewrite IH.
    pose proof (prodZ_pos ds Hpos).
    rewrite (Z.mul_comm d), Z.rem_mul_r by lia. ring.
Qed.

Lemma unravel_in_shape ds i :
  Forall (fun d => 1 <= d) ds ->
  in_shape ds (unravel i (suffix_products ds) ds).
Proof.
  induction 1 as [|d ds Hd Hpos IH]; [constructor |].
  cbn [suffix_products unravel]. constructor; [| exact IH].
  apply Z.mod_pos_bound. lia.
Qed.

Lemma in_shape_pos ds idx : in_shape ds idx -> Forall (fun d => 1 <= d) ds.
Proof. induction 1; constructor; [lia | assumption]. Qed.

Lemma offset_in_bounds ds idx :
  in_shape ds idx -> 0 <= offset (suffix_products ds) idx < prodZ ds.
Proof.
  induction 1 as [|d x ds idx Hx Hin IH]; [cbn; lia |].
  cbn [suffix_products offset prodZ]. nia.
Qed.

Lemma unravel_shift ds : forall a k c,
  Forall (fun d => 1 <= d) ds ->
  unravel (a + k * (c * prodZ ds)) (suffix_products ds) ds
  = unravel a (suffix_products ds) ds.
Proof.
  induction ds as [|d ds IH]; intros a k c Hpos; [reflexivity |].
  inversion Hpos as [|? ? Hd Hpos']; subst.
  pose proof (prodZ_pos ds Hpos').
  cbn [suffix_products unravel prodZ]. f_equal.
  - replace (a + k * (c * (d * prodZ ds)))
      with (a + (k * c * d) * prodZ ds) by ring.
    rewrite Z.div_add by lia.
    replace (a / prodZ ds + k * c * d) with (a / prodZ ds + (k * c) * d) by ring.
    apply Z.mod_add. lia.
  - replace (k * (c * (d * prodZ ds))) with (k * ((c * d) * prodZ ds)) by ring.
    now apply IH.
Qed.

Lemma unravel_offset ds idx :
  in_shape ds idx ->
  unravel (offset (suffix_products ds) idx) (suffix_products ds) ds = idx.
Proof.
  induction 1 as [|d x ds idx Hx Hin IH]; [reflexivity |].
  pose proof (in_shape_pos _ _ Hin) as Hpos.
  pose proof (prodZ_pos ds Hpos).
  pose proof (offset_in_bounds _ _ Hin) as Hb.
  cbn [suffix_products offset unravel]. f_equal.
  - rewrite Z.add_comm, Z.div_add by lia.
    rewrite (Z.div_small (offset _ _)) by lia.
    apply Z.mod_small. lia.
  - rewrite Z.add_comm.
    replace (x * prodZ ds) with (x * (1 * prodZ ds)) by ring.
    rewrite unravel_shift by assumption. exact IH.
Qed.

(** The loop of the demo computes the multi-index over the integers, as
    long as the element number is a non-negative [int]. *)
Lemma MainTensor_indices_loop (t : Core.Tensor) i c : forall j,
  Forall (fun d => 1 <= d) (Core.shape t) ->
  Core.stride t = suffix_products (Core.shape t) ->
  0 <= i <= int32_max ->
  (j + c = length (Core.shape t))%nat ->
  MainTensor.indices_loop t i j c
  = Ok (unravel i (drop j (Core.stride t)) (drop j (Core.shape t))).
Proof.
  induction c as [|c IH]; intros j Hpos Hstr Hi Hj.
  - cbn. rewrite (drop_ge (Core.shape t)) by lia.
    now destruct (drop j (Core.stride t)).
  - cbn [MainTensor.indices_loop].
    destruct (lookup_lt_is_Some_2 (Core.shape t) j ltac:(lia)) as [d Hd].
    assert (Hst : Core.stride t !! j
                  = Some (prodZ (drop (S j) (Core.shape t)))).
    { rewrite Hstr. apply suffix_products_lookup. lia. }
    rewrite Hst, Hd.
    rewrite (drop_S _ _ _ Hst), (drop_S _ _ _ Hd). cbn [unravel].
    set (st := prodZ (drop (S j) (Core.shape t))).
    assert (Hstpos : 1 <= st).
    { apply prodZ_pos. now apply Forall_drop. }
    assert (Hdpos : 1 <= d).
    { rewrite Forall_lookup in Hpos. exact (Hpos j d Hd). }
    assert (Hq : 0 <= i / st <= i).
    { split; [apply Z.div_pos; lia |].
      apply Z.div_le_upper_bound; nia. }
    assert (Hqd : 0 <= (i / st) / d <= i).
    { split; [apply Z.div_pos; lia |].
      apply Z.div_le_upper_bound; nia. }
    assert (Hin : forall z, 0 <= z <= i -> in_int32 z = true).
    { intros z Hz. unfold in_int32, int32_min. apply andb_true_intro.
      split; apply Z.leb_le; unfold int32_max in *; lia. }
    unfold MainTensor.int_div, MainTensor.int_rem.
    destruct (Z.eqb_spec st 0); [lia |].
    rewrite Z.quot_div_nonneg by lia. rewrite (Hin _ Hq).
    cbn [mbind outcome_bind].
    destruct (Z.eqb_spec d 0); [lia |].
    rewrite Z.quot_div_nonneg, (Hin _ Hqd) by lia.
    cbn [mbind outcome_bind].
    rewrite Z.rem_mod_nonneg by lia.
    rewrite (IH (S j)) by (assumption || lia). reflexivity.
Qed.

Lemma MainTensor_element_indices (t : Core.Tensor) i :
  Forall (fun d => 1 <= d) (Core.shape t) ->
  Core.stride t = suffix_products (Core.shape t) ->
  0 <= i <= int32_max ->
  MainTensor.element_indices t i
  = Ok (unravel i (suffix_products (Core.shape t)) (Core.shape t)).
Proof.
  intros Hpos Hstr Hi. unfold MainTensor.element_indices.
  rewrite (MainTensor_indices_loop t i _ 0%nat) by (assumption || lia).
  now rewrite !drop_0, Hstr.
Qed.

(** X3.  In the demo, the indices printed for the element number [i] of a
    constructed tensor, the product of whose dimensions fits in [int32_t],
    form a multi-index inside the shape whose offset under the tensor's
    strides is [i] again. *)
Theorem MainTensor_indices_recompose shape dtype device rg h t h' i :
  Core.Tensor_new shape dtype device rg h = Ok (t, h') ->
  prodZ (Core.dims shape) <= int32_max ->
  0 <= i < Core.numel t ->
  exists idx,
    MainTensor.element_indices t i = Ok idx /\
    in_shape (Core.shape t) idx /\
    offset (Core.stride t) idx = i.
Proof.
  intros Hnew Hfit Hi.
  destruct (Core_Tensor_new_exact _ _ _ _ _ _ _ Hnew Hfit)
    as (Hshape & _ & Hpos & Hstr & _ & Hnumel & _).
  rewrite <- Hshape in Hpos, Hstr, Hnumel, Hfit.
  eexists. split; [apply MainTensor_element_indices; (assumption || lia) |].
  split; [now apply unravel_in_shape |].
  rewrite Hstr, offset_unravel by assumption.
  apply Z.mod_small. lia.
Qed.

(** X4.  Under the strides of a constructed tensor, the product of whose
    dimensions fits in [int32_t], every multi-index inside the shape has an
    offset below [numel()], and the demo's index computation at that offset
    gives the multi-index back: distinct multi-indices address distinct
    elements. *)
Theorem Core_offsets_in_bounds_injective shape dtype device rg h t h' idx :
  Core.Tensor_new shape dtype device rg h = Ok (t, h') ->
  prodZ (Core.dims shape) <= int32_max ->
  in_shape (Core.shape t) idx ->
  0 <= offset (Core.stride t) idx < Core.numel t /\
  MainTensor.element_indices t (offset (Core.stride t) idx) = Ok idx /\
  forall idx', in_shape (Core.shape t) idx' ->
               offset (Core.stride t) idx' = offset (Core.stride t) idx ->
               idx' = idx.
Proof.
  intros Hnew Hfit Hin.
  destruct (Core_Tensor_new_exact _ _ _ _ _ _ _ Hnew Hfit)
    as (Hshape & _ & Hpos & Hstr & _ & Hnumel & _).
  rewrite <- Hshape in Hpos, Hstr, Hnumel, Hfit.
  pose proof (offset_in_bounds _ _ Hin) as Hb.
  rewrite Hstr, Hnumel. split; [exact Hb |]. split.
  - rewrite MainTensor_element_indices by (assumption || lia).
    f_equal. now apply unravel_offset.
  - intros idx' Hin' Heq.
    rewrite <- (unravel_offset _ _ Hin'), Heq. now apply unravel_offset.
Qed.

Lemma MainTensor_indices_recompose_witness :
  exists t h',
    Core.Tensor_new (Core.mkShape [2; 3; 4]) Core.Float32 Core.Device_default
      false (empty_heap 96) = Ok (t, h') /\
    exists idx,
      MainTensor.element_indices t 17 = Ok idx /\
      in_shape (Core.shape t) idx /\
      offset (Core.stride t) idx = 17.
Proof.
  destruct (Core.Tensor_new (Core.mkShape [2; 3; 4]) Core.Float32
              Core.Device_default false (empty_heap 96))
    as [[t h']| |] eqn:Hrun; [| vm_compute in Hrun; discriminate ..].
  exists t, h'. split; [reflexivity |].
  apply (MainTensor_indices_recompose _ _ _ _ _ _ _ 17 Hrun).
  - vm_compute. discriminate.
  - vm_compute in Hrun. injection Hrun as <- _. vm_compute.
    split; [discriminate | reflexivity].
Defined.

Lemma Core_offsets_in_bounds_injective_witness :
  exists t h',
    Core.Tensor_new (Core.mkShape [2; 3; 4]) Core.Float32 Core.Device_default
      false (empty_heap 96) = Ok (t, h') /\
    0 <= offset (Core.stride t) [1; 2; 3] < Core.numel t /\
    MainTensor.element_indices t (offset (Core.stride t) [1; 2; 3])
    = Ok [1; 2; 3].
Proof.
  destruct (Core.Tensor_new (Core.mkShape [2; 3; 4]) Core.Float32
              Core.Device_default false (empty_heap 96))
    as [[t h']| |] eqn:Hrun; [| vm_compute in Hrun; discriminate ..].
  exists t, h'. split; [reflexivity |].
  destruct (Core_offsets_in_bounds_injective _ _ _ _ _ _ _ [1; 2; 3] Hrun)
    as (Hrange & Hback & _).
  - vm_compute. discriminate.
  - vm_compute in Hrun. injection Hrun as <- _.
    repeat constructor; lia.
  - split; assumption.
Defined.


(** ** The constructor of [src/tensor.cpp], case by case *)

Lemma Core_nbytes_valid (t : Core.Tensor) sz :
  Core.dims (Core.shape_ t) <> [] ->
  Forall (fun d => 1 <= d) (Core.dims (Core.shape_ t)) ->
  prodZ (Core.dims (Core.shape_ t)) <= int32_max ->
  Core.dtype_size (Core.dtype_ t) = Ok sz ->
  Core.nbytes t = Ok (prodZ (Core.dims (Core.shape_ t)) * sz) /\
  0 < prodZ (Core.dims (Core.shape_ t)) * sz < size_modulus.
Proof.
  intros Hne Hpos Hfit Hsz. unfold Core.nbytes. rewrite Hsz.
  cbn [mbind outcome_bind]. rewrite Core_numel_wrap by assumption.
  pose proof (prodZ_pos _ Hpos) as Hprod.
  apply Core_dtype_size_inv in Hsz as [_ Hsz].
  assert (Hrange : 0 < prodZ (Core.dims (Core.shape_ t)) * sz < size_modulus)
    by (unfold size_modulus, int32_max in *; nia).
  split; [| exact Hrange]. f_equal.
  rewrite size_mul_wrap_l. apply size_wrap_small. unfold is_size_t. lia.
Qed.

(** X5.  An unrecognised dtype value never yields a tensor: for a valid
    shape the constructor throws [std::invalid_argument], on any device and
    before anything is allocated. *)
Theorem Core_Tensor_new_unrecognized_dtype shape dtype device rg h :
  dtype ∉ Core.Dtype_enumerators ->
  is_ok (Core.Tensor_new shape dtype device rg h) = false /\
  (Core.dims shape <> [] ->
   Forall (fun d => 1 <= d) (Core.dims shape) ->
   prodZ (Core.dims shape) <= int32_max ->
   Core.Tensor_new shape dtype device rg h
   = Throw (invalid_argument "Unsupported Dtype")).
Proof.
  intros Hbad. pose proof (Core_dtype_size_unrecognized _ Hbad) as Hthrow.
  split.
  - destruct (Core.Tensor_new shape dtype device rg h) as [[t h']| |] eqn:Hnew;
      try reflexivity.
    destruct (Core_Tensor_new_inv _ _ _ _ _ _ _ Hnew)
      as (_ & _ & _ & sz & l & Hsz & _).
    congruence.
  - intros Hne Hpos Hfit. rewrite Core_Tensor_new_valid by assumption.
    unfold Core.allocate_memory, Core.nbytes. cbn [Core.dtype_].
    now rewrite Hthrow.
Qed.

(** X6.  On a device other than the CPU the constructor never yields a
    tensor: for a valid shape and a recognised dtype it throws the
    [std::runtime_error] of the CUDA branch, or the one of the last branch
    for a device type that is neither. *)
Theorem Core_Tensor_new_other_device shape dtype device rg h :
  Core.type device <> Core.CPU ->
  is_ok (Core.Tensor_new shape dtype device rg h) = false /\
  (Core.dims shape <> [] ->
   Forall (fun d => 1 <= d) (Core.dims shape) ->
   prodZ (Core.dims shape) <= int32_max ->
   dtype ∈ Core.Dtype_enumerators ->
   Core.Tensor_new shape dtype device rg h
   = Throw (runtime_error
              (if Core.type device =? Core.CUDA
               then "CUDA device allocation not implemented yet."
               else "Unsupported device type for allocation."))).
Proof.
  intros Hdev. split.
  - destruct (Core.Tensor_new shape dtype device rg h) as [[t h']| |] eqn:Hnew;
      try reflexivity.
    destruct (Core_Tensor_new_inv _ _ _ _ _ _ _ Hnew)
      as (_ & _ & _ & sz & l & _ & Hcpu & _).
    congruence.
  - intros Hne Hpos Hfit Hdtype. rewrite Core_Tensor_new_valid by assumption.
    assert (Hsz : exists sz, Core.dtype_size dtype = Ok sz).
    { unfold Core.Dtype_enumerators in Hdtype.
      repeat (apply elem_of_cons in Hdtype as [-> | Hdtype]; [eexists; reflexivity |]).
      inversion Hdtype. }
    destruct Hsz as [sz Hsz].
    set (t := Core.mkTensor _ _ _ _ _ _ _).
    destruct (Core_nbytes_valid t sz Hne Hpos Hfit Hsz) as [Hbytes Hrange].
    unfold Core.allocate_memory. rewrite Hbytes. cbn [mbind outcome_bind].
    destruct (Z.eqb_spec (prodZ (Core.dims (Core.shape_ t)) * sz) 0); [lia |].
    cbn [Core.device_ t].
    destruct (Z.eqb_spec (Core.type device) Core.CPU); [contradiction |].
    now destruct (Core.type device =? Core.CUDA).
Qed.

(** X7.  For a valid shape, a recognised dtype and the CPU, the constructor
    returns whenever the free store can supply [numel * dtype_size] bytes:
    the tensor owns a fresh block of exactly that many bytes with one owner,
    the free store shrinks by as much, and no other block changes. *)
Theorem Core_Tensor_new_allocates shape dtype device rg h sz :
  Core.dims shape <> [] ->
  Forall (fun d => 1 <= d) (Core.dims shape) ->
  prodZ (Core.dims shape) <= int32_max ->
  Core.dtype_size dtype = Ok sz ->
  Core.type device = Core.CPU ->
  prodZ (Core.dims shape) * sz <= avail h ->
  exists l h',
    Core.Tensor_new shape dtype device rg h
    = Ok (Core.mkTensor shape (Core.mkStride (suffix_products (Core.dims shape)))
                        dtype device rg true (Some l), h') /\
    blocks h !! l = None /\
    blocks h' !! l
    = Some (Block (replicate (Z.to_nat (prodZ (Core.dims shape) * sz)) None) 1) /\
    (forall l', l' <> l -> blocks h' !! l' = blocks h !! l') /\
    avail h' = avail h - prodZ (Core.dims shape) * sz.
Proof.
  intros Hne Hpos Hfit Hsz Hcpu Hmem.
  rewrite Core_Tensor_new_valid by assumption.
  set (t := Core.mkTensor _ _ _ _ _ _ _).
  destruct (Core_nbytes_valid t sz Hne Hpos Hfit Hsz) as [Hbytes Hrange].
  cbn [t Core.shape_] in Hbytes, Hrange.
  destruct (new_shared_ok _ h Hmem) as (l & h' & Hnew).
  exists l, h'. unfold Core.allocate_memory. rewrite Hbytes.
  cbn [mbind outcome_bind].
  destruct (Z.eqb_spec (prodZ (Core.dims shape) * sz) 0); [lia |].
  cbn [Core.device_ t]. rewrite Hcpu, Z.eqb_refl, Hnew.
  cbn [mbind outcome_bind]. split; [reflexivity |].
  apply new_shared_inv in Hnew as (_ & Hfresh & Hblocks & Havail).
  rewrite Hblocks. repeat split; try assumption.
  - apply lookup_insert_eq.
  - intros l' Hl'. now apply lookup_insert_ne.
Qed.

(** Reading from a block of indeterminate bytes. *)
Lemma load_indeterminate T h l n u k :
  blocks h !! l = Some (Block (replicate n None) u) ->
  load T h (Some l) k
  = if (n <? (k + 1) * Z.to_nat (sizeof T))%nat
    then Undefined "read past the end of the buffer"
    else Undefined "read of an indeterminate value".
Proof.
  intros Hb. unfold load. rewrite Hb. cbn [bytes]. rewrite length_replicate.
  destruct (Nat.ltb_spec n ((k + 1) * Z.to_nat (sizeof T))); [reflexivity |].
  assert (Hsz : (0 < Z.to_nat (sizeof T))%nat) by (destruct T; cbn; lia).
  rewrite drop_replicate, take_replicate.
  destruct (Z.to_nat (sizeof T) `min` (n - k * Z.to_nat (sizeof T)))%nat eqn:E;
    [nia | reflexivity].
Qed.

Lemma Core_Tensor_new_unrecognized_dtype_witness :
  Core.Tensor_new (Core.mkShape [2; 3]) 7 Core.Device_default false
    (empty_heap 1024)
  = Throw (invalid_argument "Unsupported Dtype").
Proof.
  apply Core_Tensor_new_unrecognized_dtype.
  - unfold Core.Dtype_enumerators. rewrite !not_elem_of_cons.
    repeat split; try discriminate. apply not_elem_of_nil.
  - discriminate.
  - repeat constructor; lia.
  - vm_compute. discriminate.
Defined.

Lemma Core_Tensor_new_other_device_witness :
  Core.Tensor_new (Core.mkShape [2; 3]) Core.Float32
    (Core.mkDevice Core.CUDA 0) false (empty_heap 1024)
  = Throw (runtime_error "CUDA device allocation not implemented yet.").
Proof.
  apply (Core_Tensor_new_other_device (Core.mkShape [2; 3]) Core.Float32
           (Core.mkDevice Core.CUDA 0) false (empty_heap 1024)).
  - discriminate.
  - discriminate.
  - repeat constructor; lia.
  - vm_compute. discriminate.
  - unfold Core.Dtype_enumerators. repeat constructor.
Defined.

Lemma Core_Tensor_new_allocates_witness :
  exists l h',
    Core.Tensor_new (Core.mkShape [2; 3]) Core.Float32 Core.Device_default
      false (empty_heap 24)
    = Ok (Core.mkTensor (Core.mkShape [2; 3]) (Core.mkStride [3; 1])
            Core.Float32 Core.Device_default false true (Some l), h') /\
    blocks h' !! l = Some (Block (replicate 24 None) 1) /\
    avail h' = 0.
Proof.
  destruct (Core_Tensor_new_allocates (Core.mkShape [2; 3]) Core.Float32
              Core.Device_default false (empty_heap 24) 4)
    as (l & h' & Hrun & _ & Hblock & _ & Havail).
  - discriminate.
  - repeat constructor; lia.
  - vm_compute. discriminate.
  - reflexivity.
  - reflexivity.
  - vm_compute. discriminate.
  - exists l, h'. split; [exact Hrun |]. split; [exact Hblock | exact Havail].
Defined.


(** ** The constructors of [src/main_folder/tensor.h], case by case *)

Lemma MainFolder_allocate_device t h t1 h1 :
  MainFolder.allocate_memory t h = Ok (t1, h1) ->
  MainFolder.type (MainFolder.device_ t) = MainFolder.CPU /\
  (MainFolder.dtype_ t = MainFolder.Float32
   \/ MainFolder.dtype_ t = MainFolder.Int32).
Proof.
  unfold MainFolder.allocate_memory, MainFolder.element_size.
  assert (Hdev : forall sz,
    (if size_mul (MainFolder.compute_numel t) sz =? 0
     then Throw (runtime_error "Cannot allocate zero-size tensor.")
     else if MainFolder.type (MainFolder.device_ t) =? MainFolder.CPU
          then '(l, h') ← new_shared (size_mul (MainFolder.compute_numel t) sz) h;
               Ok (MainFolder.mkTensor (MainFolder.dtype_ t)
                     (MainFolder.device_ t) (MainFolder.strides_ t) true
                     (MainFolder.shape_ t) (Some l), h')
          else Throw (runtime_error "CUDA allocation not implemented yet."))
    = Ok (t1, h1) ->
    MainFolder.type (MainFolder.device_ t) = MainFolder.CPU).
  { intros sz. destruct (_ =? 0); [discriminate |].
    destruct (Z.eqb_spec (MainFolder.type (MainFolder.device_ t)) MainFolder.CPU);
      [auto | discriminate]. }
  destruct (Z.eqb_spec (MainFolder.dtype_ t) MainFolder.Float32).
  - intros H. split; [exact (Hdev 4 H) | now left].
  - destruct (Z.eqb_spec (MainFolder.dtype_ t) MainFolder.Int32).
    + intros H. split; [exact (Hdev 4 H) | now right].
    + discriminate.
Qed.

Lemma MainFolder_allocate_unsupported t h :
  MainFolder.dtype_ t <> MainFolder.Float32 ->
  MainFolder.dtype_ t <> MainFolder.Int32 ->
  MainFolder.allocate_memory t h = Throw (runtime_error "Unsupported dtype").
Proof.
  intros Hf Hi. unfold MainFolder.allocate_memory, MainFolder.element_size.
  destruct (Z.eqb_spec (MainFolder.dtype_ t) MainFolder.Float32); [contradiction |].
  destruct (Z.eqb_spec (MainFolder.dtype_ t) MainFolder.Int32); [contradiction |].
  reflexivity.
Qed.

Lemma MainFolder_compute_strides_fields t :
  MainFolder.dtype_ (MainFolder.compute_strides t) = MainFolder.dtype_ t /\
  MainFolder.device_ (MainFolder.compute_strides t) = MainFolder.device_ t /\
  MainFolder.data_ (MainFolder.compute_strides t) = MainFolder.data_ t /\
  MainFolder.is_owner_ (MainFolder.compute_strides t) = MainFolder.is_owner_ t.
Proof.
  unfold MainFolder.compute_strides.
  now destruct (MainFolder.dims (MainFolder.shape_ t)).
Qed.

(** X8.  A dtype other than Float32 and Int32 is rejected by every path that
    allocates, with the [std::runtime_error] of [element_size], whatever the
    shape and the device: the allocate-only and nested-data constructors,
    [zeros] and [ones] throw it (so the factories never return a tensor left
    unfilled), and the flat-data constructor throws it once its own checks
    have passed. *)
Theorem MainFolder_unsupported_dtype dtype :
  dtype <> MainFolder.Float32 -> dtype <> MainFolder.Int32 ->
  (forall shape device h,
      MainFolder.Tensor_alloc shape dtype device h
      = Throw (runtime_error "Unsupported dtype") /\
      MainFolder.zeros shape dtype device h
      = Throw (runtime_error "Unsupported dtype") /\
      MainFolder.ones shape dtype device h
      = Throw (runtime_error "Unsupported dtype")) /\
  (forall E n vec device h,
      MainFolder.Tensor_nested E n vec dtype device h
      = Throw (runtime_error "Unsupported dtype")) /\
  (forall T vec shape device h,
      is_ok (MainFolder.Tensor_flat T vec shape dtype device h) = false /\
      (Forall (fun d => 1 <= d) (MainFolder.dims shape) ->
       Z.of_nat (length vec) = size_wrap (prodZ (MainFolder.dims shape)) ->
       MainFolder.Tensor_flat T vec shape dtype device h
       = Throw (runtime_error "Unsupported dtype"))).
Proof.
  intros Hf Hi.
  assert (Halloc : forall shape device h,
             MainFolder.Tensor_alloc shape dtype device h
             = Throw (runtime_error "Unsupported dtype")).
  { intros shape device h. unfold MainFolder.Tensor_alloc.
    apply MainFolder_allocate_unsupported;
      now rewrite (proj1 (MainFolder_compute_strides_fields _)). }
  split; [| split].
  - intros shape device h. split; [apply Halloc |].
    unfold MainFolder.zeros, MainFolder.ones. now rewrite Halloc.
  - intros E n vec device h. unfold MainFolder.Tensor_nested.
    now rewrite MainFolder_allocate_unsupported.
  - intros T vec shape device h. unfold MainFolder.Tensor_flat. split.
    + destruct (MainFolder.expected_size_loop _ 1); try reflexivity.
      cbn [mbind outcome_bind]. destruct (negb _); [reflexivity |].
      now rewrite MainFolder_allocate_unsupported.
    + intros Hpos Hlen. rewrite MainFolder_expected_size by assumption.
      cbn [mbind outcome_bind]. rewrite Hlen, Z.eqb_refl. cbn [negb].
      now rewrite MainFolder_allocate_unsupported.
Qed.

(** X9.  On a device other than the CPU no path of
    [src/main_folder/tensor.h] yields a tensor; the allocate-only
    constructor, given a shape with a non-zero byte count and a supported
    dtype, throws the [std::runtime_error] of the CUDA branch. *)
Theorem MainFolder_other_device device :
  MainFolder.type device <> MainFolder.CPU ->
  (forall shape dtype h,
      is_ok (MainFolder.Tensor_alloc shape dtype device h) = false /\
      is_ok (MainFolder.zeros shape dtype device h) = false /\
      is_ok (MainFolder.ones shape dtype device h) = false) /\
  (forall T vec shape dtype h,
      is_ok (MainFolder.Tensor_flat T vec shape dtype device h) = false) /\
  (forall E n vec dtype h,
      is_ok (MainFolder.Tensor_nested E n vec dtype device h) = false) /\
  (forall shape dtype h,
      dtype = MainFolder.Float32 \/ dtype = MainFolder.Int32 ->
      MainFolder.dims shape <> [] ->
      Forall (fun d => 1 <= d) (MainFolder.dims shape) ->
      4 * prodZ (MainFolder.dims shape) < size_modulus ->
      MainFolder.Tensor_alloc shape dtype device h
      = Throw (runtime_error "CUDA allocation not implemented yet.")).
Proof.
  intros Hdev.
  assert (Hno : forall t h, MainFolder.device_ t = device ->
                            is_ok (MainFolder.allocate_memory t h) = false).
  { intros t h Ht.
    destruct (MainFolder.allocate_memory t h) as [[t1 h1]| |] eqn:Halloc;
      try reflexivity.
    apply MainFolder_allocate_device in Halloc as [Hcpu _]. congruence. }
  assert (Halloc : forall shape dtype h,
             is_ok (MainFolder.Tensor_alloc shape dtype device h) = false).
  { intros shape dtype h. apply Hno.
    now rewrite (proj1 (proj2 (MainFolder_compute_strides_fields _))). }
  split; [| split; [| split]].
  - intros shape dtype h. split; [apply Halloc |].
    unfold MainFolder.zeros, MainFolder.ones.
    specialize (Halloc shape dtype h).
    destruct (MainFolder.Tensor_alloc shape dtype device h) as [[t h1]| |];
      [discriminate | split; reflexivity ..].
  - intros T vec shape dtype h. unfold MainFolder.Tensor_flat.
    destruct (MainFolder.expected_size_loop _ 1); try reflexivity.
    cbn [mbind outcome_bind]. destruct (negb _); [reflexivity |].
    pose proof (Hno (MainFolder.Tensor_init shape dtype device) h eq_refl) as H.
    destruct (MainFolder.allocate_memory _ h) as [[t1 h1]| |];
      [discriminate | reflexivity ..].
  - intros E n vec dtype h. unfold MainFolder.Tensor_nested.
    pose proof (Hno (MainFolder.Tensor_init
                       (MainFolder.infer_shape (S (S n)) vec) dtype device)
                    h eq_refl) as H.
    destruct (MainFolder.allocate_memory _ h) as [[t1 h1]| |];
      [discriminate | reflexivity ..].
  - intros shape dtype h Hdtype Hne Hpos Hsmall.
    pose proof (prodZ_pos _ Hpos) as Hprod.
    assert (Hbytes : size_mul (size_wrap (prodZ (MainFolder.dims shape))) 4 <> 0).
    { rewrite size_mul_wrap_l, size_wrap_small; unfold is_size_t; lia. }
    unfold MainFolder.Tensor_alloc.
    set (t := MainFolder.compute_strides _).
    destruct (MainFolder_compute_strides_fields
                (MainFolder.Tensor_init shape dtype device))
      as (Hdt & Hdv & _). fold t in Hdt, Hdv.
    assert (Hnumel : MainFolder.compute_numel t
                     = size_wrap (prodZ (MainFolder.dims shape))).
    { change (MainFolder.compute_numel t) with (MainFolder.numel t).
      unfold t. rewrite MainFolder_numel_wrap;
        rewrite MainFolder_compute_strides_shape; [reflexivity | exact Hne]. }
    unfold MainFolder.allocate_memory, MainFolder.element_size.
    rewrite Hdt, Hdv, Hnumel. cbn [MainFolder.Tensor_init MainFolder.device_
                                   MainFolder.dtype_].
    assert (Hsz : (if dtype =? MainFolder.Float32 then Ok 4
                   else if dtype =? MainFolder.Int32 then Ok 4
                   else Throw (runtime_error "Unsupported dtype")) = Ok 4)
      by (destruct Hdtype as [-> | ->]; reflexivity).
    rewrite Hsz. cbn [mbind outcome_bind].
    destruct (Z.eqb_spec (size_mul (size_wrap (prodZ (MainFolder.dims shape))) 4) 0);
      [contradiction |].
    destruct (Z.eqb_spec (MainFolder.type device) MainFolder.CPU);
      [contradiction | reflexivity].
Qed.

Lemma MainFolder_unsupported_dtype_witness :
  MainFolder.zeros (MainFolder.mkShape [2; 3]) 2
    (MainFolder.mkDevice MainFolder.CPU) (empty_heap 24)
  = Throw (runtime_error "Unsupported dtype") /\
  MainFolder.Tensor_flat c_float floats_0_to_5 (MainFolder.mkShape [2; 3]) 2
    (MainFolder.mkDevice MainFolder.CPU) (empty_heap 24)
  = Throw (runtime_error "Unsupported dtype").
Proof.
  destruct (MainFolder_unsupported_dtype 2 ltac:(discriminate)
              ltac:(discriminate)) as (Halloc & _ & Hflat).
  split.
  - apply Halloc.
  - apply Hflat; [repeat constructor; lia | reflexivity].
Defined.

Lemma MainFolder_other_device_witness :
  MainFolder.Tensor_alloc (MainFolder.mkShape [2; 3]) MainFolder.Float32
    (MainFolder.mkDevice MainFolder.CUDA) (empty_heap 24)
  = Throw (runtime_error "CUDA allocation not implemented yet.") /\
  is_ok (MainFolder.zeros (MainFolder.mkShape [2; 3]) MainFolder.Float32
           (MainFolder.mkDevice MainFolder.CUDA) (empty_heap 24)) = false.
Proof.
  destruct (MainFolder_other_device (MainFolder.mkDevice MainFolder.CUDA)
              ltac:(discriminate)) as (Hfactory & _ & _ & Hthrow).
  split.
  - apply Hthrow; [now left | discriminate | repeat constructor; lia |].
    reflexivity.
  - apply Hfactory.
Defined.


(** ** Fresh buffers *)

(** X10.  A tensor fresh from the constructor of [src/tensor.cpp] or from the
    allocate-only constructor of [src/main_folder/tensor.h] holds no value
    yet: a read of any element through [data<T>()], at whatever type, has
    undefined behaviour. *)
Theorem fresh_tensor_uninitialized :
  (forall shape dtype device rg h t h' T k,
      Core.Tensor_new shape dtype device rg h = Ok (t, h') ->
      exists why, load T h' (Core.data t) k = Undefined why) /\
  (forall shape dtype device h t h' T k,
      MainFolder.Tensor_alloc shape dtype device h = Ok (t, h') ->
      exists why, load T h' (MainFolder.data t) k = Undefined why).
Proof.
  split.
  - intros shape dtype device rg h t h' T k Hnew.
    destruct (Core_Tensor_new_inv _ _ _ _ _ _ _ Hnew)
      as (_ & _ & _ & sz & l & _ & _ & Halloc & ->).
    apply new_shared_inv in Halloc as (_ & _ & Hblocks & _).
    cbn [Core.data Core.data_].
    erewrite load_indeterminate
      by (rewrite Hblocks; apply lookup_insert_eq).
    destruct (_ <? _)%nat; eauto.
  - intros shape dtype device h t h' T k Halloc.
    unfold MainFolder.Tensor_alloc in Halloc.
    apply MainFolder_allocate_inv in Halloc as (l & _ & Hnew & ->).
    apply new_shared_inv in Hnew as (_ & _ & Hblocks & _).
    cbn [MainFolder.data MainFolder.data_].
    erewrite load_indeterminate
      by (rewrite Hblocks; apply lookup_insert_eq).
    destruct (_ <? _)%nat; eauto.
Qed.

(** ** What the factories leave alone *)

Lemma store_frame_other T h p k v h' :
  store T h p k v = Ok h' ->
  exists l, p = Some l /\
    (forall l', l' <> l -> blocks h' !! l' = blocks h !! l') /\
    avail h' = avail h.
Proof.
  unfold store. destruct p as [l|]; [| discriminate].
  destruct (blocks h !! l) as [b|]; [| discriminate].
  destruct (_ <? _)%nat; [discriminate |].
  intros [= <-]. exists l. cbn [blocks avail]. repeat split.
  intros l' Hl'. now rewrite lookup_insert_ne.
Qed.

Lemma fill_frame T l c : forall k v h h',
  fill T (Some l) k c v h = Ok h' ->
  (forall l', l' <> l -> blocks h' !! l' = blocks h !! l') /\
  avail h' = avail h.
Proof.
  induction c as [|c IH]; intros k v h h'; cbn [fill].
  - intros [= <-]. split; reflexivity.
  - destruct (store T h (Some l) k v) as [h1| |] eqn:Hstore; try discriminate.
    cbn [mbind outcome_bind]. intros Hfill.
    apply store_frame_other in Hstore as (l0 & [= <-] & Hother & Havail).
    destruct (IH _ _ _ _ Hfill) as [Hother' Havail'].
    split; [| congruence].
    intros l' Hl'. now rewrite Hother', Hother.
Qed.

Lemma MainFolder_factory_frame shape dtype device h t h' v :
  ('(t, h1) ← MainFolder.Tensor_alloc shape dtype device h;
   if dtype =? MainFolder.Float32 then
     h2 ← fill c_float (MainFolder.data t) 0
            (Z.to_nat (range_length c_float (MainFolder.numel t)))
            (fst v) h1; Ok (t, h2)
   else if dtype =? MainFolder.Int32 then
     h2 ← fill c_int (MainFolder.data t) 0
            (Z.to_nat (range_length c_int (MainFolder.numel t)))
            (snd v) h1; Ok (t, h2)
   else Ok (t, h1)) = Ok (t, h') ->
  exists l,
    MainFolder.data t = Some l /\
    blocks h !! l = None /\
    (forall l' b, blocks h !! l' = Some b -> blocks h' !! l' = Some b) /\
    avail h' = avail h - size_mul (MainFolder.numel t) 4.
Proof.
  destruct (MainFolder.Tensor_alloc shape dtype device h) as [[t0 h1]| |]
    eqn:Halloc; try discriminate.
  cbn [mbind outcome_bind]. intros Hrun.
  unfold MainFolder.Tensor_alloc in Halloc.
  apply MainFolder_allocate_inv in Halloc as (l & _ & Hnew & Ht0).
  apply new_shared_inv in Hnew as (_ & Hfresh & Hblocks & Havail).
  assert (Hdata : MainFolder.data t0 = Some l) by now subst t0.
  assert (Hnumel : MainFolder.numel t0
                   = MainFolder.compute_numel
                       (MainFolder.compute_strides
                          (MainFolder.Tensor_init shape dtype device))).
  { subst t0. unfold MainFolder.numel, MainFolder.compute_numel.
    cbn [MainFolder.shape_]. reflexivity. }
  assert (Hkeep1 : forall l' b, blocks h !! l' = Some b ->
                                l' <> l /\ blocks h1 !! l' = Some b).
  { intros l' b Hb. assert (l' <> l) by congruence. split; [assumption |].
    rewrite Hblocks, lookup_insert_ne by congruence. exact Hb. }
  assert (Hcase : forall T w h2,
             fill T (MainFolder.data t0) 0
                  (Z.to_nat (range_length T (MainFolder.numel t0))) w h1
             = Ok h2 ->
             (forall l' b, blocks h !! l' = Some b -> blocks h2 !! l' = Some b) /\
             avail h2 = avail h - size_mul (MainFolder.numel t0) 4).
  { intros T w h2 Hfill. rewrite Hdata in Hfill.
    apply fill_frame in Hfill as [Hother Hav]. split.
    - intros l' b Hb. destruct (Hkeep1 l' b Hb) as [Hne Hb1].
      now rewrite Hother.
    - rewrite Hav, Havail, Hnumel. reflexivity. }
  destruct (dtype =? MainFolder.Float32).
  - destruct (fill c_float _ _ _ _ h1) as [h2| |] eqn:Hfill; try discriminate.
    cbn [mbind outcome_bind] in Hrun. injection Hrun as <- <-.
    destruct (Hcase _ _ _ Hfill). exists l. repeat split; assumption.
  - destruct (dtype =? MainFolder.Int32).
    + destruct (fill c_int _ _ _ _ h1) as [h2| |] eqn:Hfill; try discriminate.
      cbn [mbind outcome_bind] in Hrun. injection Hrun as <- <-.
      destruct (Hcase _ _ _ Hfill). exists l. repeat split; assumption.
    + injection Hrun as <- <-. exists l. repeat split; try assumption.
      * intros l' b Hb. now destruct (Hkeep1 l' b Hb).
      * rewrite Havail, Hnumel. reflexivity.
Qed.

(** X11.  [zeros] and [ones] work on a buffer of their own: the tensor they
    return points to a block that did not exist before, every block that did
    is unchanged, byte for byte and owner for owner, and the free store
    shrinks by the byte count of the tensor. *)
Theorem MainFolder_zeros_ones_frame shape dtype device h t h' :
  MainFolder.zeros shape dtype device h = Ok (t, h')
  \/ MainFolder.ones shape dtype device h = Ok (t, h') ->
  exists l,
    MainFolder.data t = Some l /\
    blocks h !! l = None /\
    (forall l' b, blocks h !! l' = Some b -> blocks h' !! l' = Some b) /\
    avail h' = avail h - size_mul (MainFolder.numel t) 4.
Proof.
  intros [Hrun | Hrun].
  - exact (MainFolder_factory_frame shape dtype device h t h'
             (MainFolder.float_zero, MainFolder.int_zero) Hrun).
  - exact (MainFolder_factory_frame shape dtype device h t h'
             (MainFolder.float_one, MainFolder.int_one) Hrun).
Qed.

Lemma fresh_tensor_uninitialized_witness :
  (exists t h' why,
      Core.Tensor_new (Core.mkShape [2; 3]) Core.Float32 Core.Device_default
        false (empty_heap 24) = Ok (t, h') /\
      load c_float h' (Core.data t) 0 = Undefined why) /\
  (exists t h' why,
      MainFolder.Tensor_alloc (MainFolder.mkShape [2; 3]) MainFolder.Float32
        (MainFolder.mkDevice MainFolder.CPU) (empty_heap 24) = Ok (t, h') /\
      load c_float h' (MainFolder.data t) 0 = Undefined why).
Proof.
  destruct fresh_tensor_uninitialized as [Hcore Hmain]. split.
  - destruct (Core.Tensor_new (Core.mkShape [2; 3]) Core.Float32
                Core.Device_default false (empty_heap 24))
      as [[t h']| |] eqn:Hrun; [| vm_compute in Hrun; discriminate ..].
    destruct (Hcore _ _ _ _ _ _ _ c_float 0%nat Hrun) as [why Hload].
    exists t, h', why. split; [reflexivity | exact Hload].
  - destruct (MainFolder.Tensor_alloc (MainFolder.mkShape [2; 3])
                MainFolder.Float32 (MainFolder.mkDevice MainFolder.CPU)
                (empty_heap 24))
      as [[t h']| |] eqn:Hrun; [| vm_compute in Hrun; discriminate ..].
    destruct (Hmain _ _ _ _ _ _ c_float 0%nat Hrun) as [why Hload].
    exists t, h', why. split; [reflexivity | exact Hload].
Defined.

Lemma MainFolder_zeros_ones_frame_witness :
  exists t h' l,
    MainFolder.zeros (MainFolder.mkShape [2; 3]) MainFolder.Float32
      (MainFolder.mkDevice MainFolder.CPU) (empty_heap 100) = Ok (t, h') /\
    MainFolder.data t = Some l /\
    avail h' = avail (empty_heap 100) - size_mul (MainFolder.numel t) 4.
Proof.
  destruct (MainFolder.zeros (MainFolder.mkShape [2; 3]) MainFolder.Float32
              (MainFolder.mkDevice MainFolder.CPU) (empty_heap 100))
    as [[t h']| |] eqn:Hrun; [| vm_compute in Hrun; discriminate ..].
  destruct (MainFolder_zeros_ones_frame _ _ _ _ _ _ (or_introl Hrun))
    as (l & Hdata & _ & _ & Havail).
  exists t, h', l. split; [reflexivity |]. split; [exact Hdata | exact Havail].
Defined.


(** ** Copying data into a fresh buffer *)

(** Allocation for a shape of [count] elements on the CPU, when the bytes
    are there. *)
Lemma MainFolder_allocate_fresh shape dtype h count :
  dtype = MainFolder.Float32 \/ dtype = MainFolder.Int32 ->
  MainFolder.compute_numel
    (MainFolder.Tensor_init shape dtype (MainFolder.mkDevice MainFolder.CPU))
  = count ->
  0 < count -> 4 * count <= avail h -> avail h < size_modulus ->
  exists l h1,
    MainFolder.allocate_memory
      (MainFolder.Tensor_init shape dtype (MainFolder.mkDevice MainFolder.CPU)) h
    = Ok (MainFolder.mkTensor dtype (MainFolder.mkDevice MainFolder.CPU) []
            true shape (Some l), h1) /\
    blocks h1 !! l = Some (Block (replicate (Z.to_nat (4 * count)) None) 1).
Proof.
  intros Hdtype Hnumel Hpos Hmem Hcap.
  assert (Htotal : size_mul count 4 = 4 * count).
  { unfold size_mul. rewrite Z.mul_comm. apply size_wrap_small.
    unfold is_size_t. lia. }
  destruct (MainFolder_allocate_ok
              (MainFolder.Tensor_init shape dtype
                 (MainFolder.mkDevice MainFolder.CPU)) h)
    as (l & h1 & Halloc & Hnew);
    [exact Hdtype | reflexivity | rewrite Hnumel, Htotal; lia |].
  exists l, h1. split; [exact Halloc |].
  apply new_shared_inv in Hnew as (_ & _ & Hblocks & _).
  rewrite Hblocks, lookup_insert_eq, Hnumel, Htotal. reflexivity.
Qed.

(** [memcpy] of the whole array of a vector into a fresh block. *)
Lemma memcpy_fresh h l T vec n u :
  blocks h !! l = Some (Block (replicate n None) u) ->
  Z.of_nat (length vec) * sizeof T < size_modulus ->
  memcpy h (Some l) (vector_bytes T vec)
         (size_mul (Z.of_nat (length vec)) (sizeof T))
  = if (n <? length vec * Z.to_nat (sizeof T))%nat
    then Undefined "memcpy writes past the end of the buffer"
    else memcpy h (Some l) (vector_bytes T vec)
                (Z.of_nat (length (vector_bytes T vec))).
Proof.
  intros Hb Hsmall.
  assert (Hsz : sizeof T = Z.of_nat (Z.to_nat (sizeof T)))
    by (destruct T; reflexivity).
  assert (Hn : size_mul (Z.of_nat (length vec)) (sizeof T)
               = Z.of_nat (length (vector_bytes T vec))).
  { rewrite vector_bytes_length, Nat2Z.inj_mul, <- Hsz.
    apply size_wrap_small. unfold is_size_t. destruct T; cbn [sizeof] in *; lia. }
  rewrite Hn. destruct (Nat.ltb_spec n (length vec * Z.to_nat (sizeof T)));
    [| reflexivity].
  unfold memcpy. rewrite Hb. cbn [bytes]. rewrite length_replicate.
  destruct (Z.ltb_spec (Z.of_nat (length (vector_bytes T vec)))
              (Z.of_nat (length (vector_bytes T vec)))); [lia |].
  rewrite vector_bytes_length.
  destruct (Z.ltb_spec (Z.of_nat n)
              (Z.of_nat (length vec * Z.to_nat (sizeof T)))); [reflexivity | lia].
Qed.

Lemma memcpy_whole_ok h l b src :
  blocks h !! l = Some b ->
  (length src <= length (bytes b))%nat ->
  exists h', memcpy h (Some l) src (Z.of_nat (length src)) = Ok h'.
Proof.
  intros Hb Hfit. unfold memcpy. rewrite Hb.
  destruct (Z.ltb_spec (Z.of_nat (length src)) (Z.of_nat (length src))); [lia |].
  destruct (Z.ltb_spec (Z.of_nat (length (bytes b))) (Z.of_nat (length src)));
    [lia | eauto].
Qed.

(** X12.  The flat-data constructor returns whenever the shape is valid, the
    data has as many elements as the shape, the element type is four bytes
    wide like both dtypes, and the free store can supply the bytes; the
    tensor has the declared shape and every element of the data is read back
    at its own index through [data<T>()]. *)
Theorem MainFolder_Tensor_flat_returns T vec shape dtype h :
  MainFolder.dims shape <> [] ->
  Forall (fun d => 1 <= d) (MainFolder.dims shape) ->
  Z.of_nat (length vec) = prodZ (MainFolder.dims shape) ->
  sizeof T = 4 ->
  dtype = MainFolder.Float32 \/ dtype = MainFolder.Int32 ->
  4 * prodZ (MainFolder.dims shape) <= avail h ->
  avail h < size_modulus ->
  exists t h',
    MainFolder.Tensor_flat T vec shape dtype
      (MainFolder.mkDevice MainFolder.CPU) h = Ok (t, h') /\
    MainFolder.shape_ t = shape /\
    MainFolder.numel t = Z.of_nat (length vec) /\
    forall k v, vec !! k = Some v ->
                load T h' (MainFolder.data t) k = Ok (stored_value T v).
Proof.
  intros Hne Hpos Hlen HT Hdtype Hmem Hcap.
  pose proof (prodZ_pos _ Hpos) as Hprod.
  assert (Hwrap : size_wrap (prodZ (MainFolder.dims shape))
                  = prodZ (MainFolder.dims shape))
    by (apply size_wrap_small; unfold is_size_t; lia).
  assert (Hnumel : MainFolder.compute_numel
                     (MainFolder.Tensor_init shape dtype
                        (MainFolder.mkDevice MainFolder.CPU))
                   = prodZ (MainFolder.dims shape)).
  { change (MainFolder.compute_numel ?t) with (MainFolder.numel t).
    now rewrite MainFolder_numel_wrap. }
  destruct (MainFolder_allocate_fresh shape dtype h _ Hdtype Hnumel
              ltac:(lia) Hmem Hcap) as (l & h1 & Halloc & Hblock).
  assert (Hrun : exists h2,
             MainFolder.Tensor_flat T vec shape dtype
               (MainFolder.mkDevice MainFolder.CPU) h
             = Ok (MainFolder.mkTensor dtype (MainFolder.mkDevice MainFolder.CPU)
                     [] true shape (Some l), h2)).
  { unfold MainFolder.Tensor_flat.
    rewrite MainFolder_expected_size by assumption.
    cbn [mbind outcome_bind]. rewrite Hwrap.
    destruct (Z.eqb_spec (Z.of_nat (length vec))
                (prodZ (MainFolder.dims shape))); [| contradiction].
    cbn [negb]. rewrite Halloc.
    cbn [mbind outcome_bind MainFolder.data_].
    rewrite (memcpy_fresh h1 l T vec _ 1 Hblock) by (rewrite HT; lia).
    destruct (Nat.ltb_spec (Z.to_nat (4 * prodZ (MainFolder.dims shape)))
                (length vec * Z.to_nat (sizeof T))) as [Hlt | _];
      [rewrite HT in Hlt; lia |].
    destruct (memcpy_whole_ok h1 l _ (vector_bytes T vec) Hblock) as [h2 Hcpy].
    { cbn [bytes]. rewrite length_replicate, vector_bytes_length, HT. lia. }
    rewrite Hcpy. eauto. }
  destruct Hrun as [h2 Hrun]. eexists. exists h2.
  split; [exact Hrun |]. split; [reflexivity |]. split.
  - unfold MainFolder.numel, MainFolder.compute_numel. cbn [MainFolder.shape_].
    unfold MainFolder.compute_numel in Hnumel.
    cbn [MainFolder.Tensor_init MainFolder.shape_] in Hnumel. lia.
  - apply (MainFolder_Tensor_flat_round_trip T vec shape dtype
             (MainFolder.mkDevice MainFolder.CPU) h _ h2);
      [rewrite HT; lia | exact Hrun].
Qed.

(** X13.  Nothing ties the element type of the data to the dtype: given
    valid data of a type wider than four bytes (a [std::vector<double>]),
    the flat-data constructor allocates four bytes per element and its
    [memcpy] writes past the end of the buffer. *)
Theorem MainFolder_Tensor_flat_wide_elements T vec shape dtype h :
  MainFolder.dims shape <> [] ->
  Forall (fun d => 1 <= d) (MainFolder.dims shape) ->
  Z.of_nat (length vec) = prodZ (MainFolder.dims shape) ->
  4 < sizeof T ->
  dtype = MainFolder.Float32 \/ dtype = MainFolder.Int32 ->
  sizeof T * prodZ (MainFolder.dims shape) <= avail h ->
  avail h < size_modulus ->
  MainFolder.Tensor_flat T vec shape dtype
    (MainFolder.mkDevice MainFolder.CPU) h
  = Undefined "memcpy writes past the end of the buffer".
Proof.
  intros Hne Hpos Hlen HT Hdtype Hmem Hcap.
  pose proof (prodZ_pos _ Hpos) as Hprod.
  assert (Hwrap : size_wrap (prodZ (MainFolder.dims shape))
                  = prodZ (MainFolder.dims shape))
    by (apply size_wrap_small; unfold is_size_t; nia).
  assert (Hnumel : MainFolder.compute_numel
                     (MainFolder.Tensor_init shape dtype
                        (MainFolder.mkDevice MainFolder.CPU))
                   = prodZ (MainFolder.dims shape)).
  { change (MainFolder.compute_numel ?t) with (MainFolder.numel t).
    now rewrite MainFolder_numel_wrap. }
  destruct (MainFolder_allocate_fresh shape dtype h _ Hdtype Hnumel
              ltac:(lia) ltac:(nia) Hcap) as (l & h1 & Halloc & Hblock).
  unfold MainFolder.Tensor_flat.
  rewrite MainFolder_expected_size by assumption.
  cbn [mbind outcome_bind]. rewrite Hwrap.
  destruct (Z.eqb_spec (Z.of_nat (length vec))
              (prodZ (MainFolder.dims shape))); [| contradiction].
  cbn [negb]. rewrite Halloc.
  cbn [mbind outcome_bind MainFolder.data_].
  rewrite (memcpy_fresh h1 l T vec _ 1 Hblock) by nia.
  destruct (Nat.ltb_spec (Z.to_nat (4 * prodZ (MainFolder.dims shape)))
              (length vec * Z.to_nat (sizeof T))) as [_ | Hge];
    [reflexivity |].
  assert (Z.of_nat (length vec * Z.to_nat (sizeof T))
          = prodZ (MainFolder.dims shape) * sizeof T).
  { rewrite Nat2Z.inj_mul, Z2Nat.id by lia. lia. }
  nia.
Qed.

Lemma MainFolder_Tensor_flat_returns_witness :
  exists t h',
    MainFolder.Tensor_flat c_float floats_0_to_5 (MainFolder.mkShape [2; 3])
      MainFolder.Float32 (MainFolder.mkDevice MainFolder.CPU) (empty_heap 24)
    = Ok (t, h') /\
    load c_float h' (MainFolder.data t) 5 = Ok 0x40A00000.
Proof.
  destruct (MainFolder_Tensor_flat_returns c_float floats_0_to_5
              (MainFolder.mkShape [2; 3]) MainFolder.Float32 (empty_heap 24))
    as (t & h' & Hrun & _ & _ & Hload).
  - discriminate.
  - repeat constructor; lia.
  - reflexivity.
  - reflexivity.
  - now left.
  - vm_compute. discriminate.
  - reflexivity.
  - exists t, h'. split; [exact Hrun |].
    exact (Hload 5%nat 0x40A00000 eq_refl).
Defined.

Lemma MainFolder_Tensor_flat_wide_elements_witness :
  MainFolder.Tensor_flat c_double [1; 2; 3; 4; 5; 6] (MainFolder.mkShape [2; 3])
    MainFolder.Float32 (MainFolder.mkDevice MainFolder.CPU) (empty_heap 48)
  = Undefined "memcpy writes past the end of the buffer".
Proof.
  apply MainFolder_Tensor_flat_wide_elements.
  - discriminate.
  - repeat constructor; lia.
  - reflexivity.
  - reflexivity.
  - now left.
  - vm_compute. discriminate.
  - reflexivity.
Defined.


(** ** The constructor from nested data *)

Lemma concat_lookup_rows {A} (rows : list (list A)) cols : forall i j r,
  Forall (fun r => length r = cols) rows ->
  rows !! i = Some r -> (j < cols)%nat ->
  concat rows !! (i * cols + j)%nat = r !! j.
Proof.
  induction rows as [|r0 rows IH]; intros i j r Hreg Hi Hj; [discriminate |].
  inversion Hreg as [|? ? Hr0 Hreg']; subst.
  cbn [concat]. destruct i as [|i]; cbn in Hi.
  - injection Hi as ->. cbn [Nat.mul Nat.add]. now apply lookup_app_l.
  - rewrite lookup_app_r by (cbn [Nat.mul]; lia).
    replace (S i * length r0 + j - length r0)%nat
      with (i * length r0 + j)%nat by (cbn [Nat.mul]; lia).
    now apply IH.
Qed.

Lemma concat_length_rows {A} (rows : list (list A)) cols :
  Forall (fun r => length r = cols) rows ->
  length (concat rows) = (length rows * cols)%nat.
Proof.
  induction 1 as [|r rows Hr _ IH]; [reflexivity |].
  cbn [concat length Nat.mul]. rewrite length_app, IH, Hr. reflexivity.
Qed.


(** The constructor on a vector of rows whose first row is not empty, up
    to its [memcpy]. *)
Lemma MainFolder_Tensor_nested_rows E (r0 : list Z) (rest : list (list Z))
    dtype h :
  r0 <> [] ->
  sizeof E = 4 ->
  dtype = MainFolder.Float32 \/ dtype = MainFolder.Int32 ->
  4 * (Z.of_nat (length (r0 :: rest)) * Z.of_nat (length r0)) <= avail h ->
  avail h < size_modulus ->
  exists l h1,
    blocks h1 !! l
    = Some (Block (replicate (Z.to_nat (4 * (Z.of_nat (length (r0 :: rest))
                                             * Z.of_nat (length r0)))) None) 1) /\
    MainFolder.Tensor_nested E 0 (r0 :: rest) dtype
      (MainFolder.mkDevice MainFolder.CPU) h
    = (h2 ← memcpy h1 (Some l) (vector_bytes E (concat (r0 :: rest)))
              (size_mul (Z.of_nat (length (concat (r0 :: rest)))) (sizeof E));
       Ok (MainFolder.mkTensor dtype (MainFolder.mkDevice MainFolder.CPU) []
             true (MainFolder.mkShape [Z.of_nat (length (r0 :: rest));
                                       Z.of_nat (length r0)])
             (Some l), h2)).
Proof.
  intros Hr0 HE Hdtype Hmem Hcap.
  assert (Hshape : MainFolder.infer_shape 2 (r0 :: rest)
                   = MainFolder.mkShape [Z.of_nat (length (r0 :: rest));
                                         Z.of_nat (length r0)]).
  { destruct r0 as [|x r0]; [congruence | reflexivity]. }
  assert (Hcols : (0 < length r0)%nat) by (destruct r0; [congruence | cbn; lia]).
  set (count := Z.of_nat (length (r0 :: rest)) * Z.of_nat (length r0)) in *.
  assert (Hcount : 0 < count) by (unfold count; cbn [length]; nia).
  destruct (MainFolder_allocate_fresh (MainFolder.infer_shape 2 (r0 :: rest))
              dtype h count Hdtype) as (l & h1 & Halloc & Hblock);
    try assumption.
  { rewrite Hshape.
    change (MainFolder.compute_numel ?t) with (MainFolder.numel t).
    rewrite MainFolder_numel_wrap by discriminate.
    cbn [MainFolder.Tensor_init MainFolder.shape_ MainFolder.dims prodZ].
    rewrite Z.mul_1_r. apply size_wrap_small. unfold is_size_t. lia. }
  exists l, h1. split; [exact Hblock |].
  unfold MainFolder.Tensor_nested. rewrite Halloc.
  cbn [mbind outcome_bind MainFolder.data_].
  rewrite (flatten_rows (r0 :: rest)), Hshape. reflexivity.
Qed.

(** X14.  Built from a matrix given as rows of equal, non-zero length, the
    tensor has the shape [rows, cols] and holds the matrix in row-major
    order: the element [(i, j)] is read at offset [i * cols + j], as the
    demo does. *)
Theorem MainFolder_Tensor_nested_matrix E (rows : list (list Z)) cols dtype h :
  rows <> [] -> (0 < cols)%nat ->
  Forall (fun r => length r = cols) rows ->
  sizeof E = 4 ->
  dtype = MainFolder.Float32 \/ dtype = MainFolder.Int32 ->
  4 * (Z.of_nat (length rows) * Z.of_nat cols) <= avail h ->
  avail h < size_modulus ->
  exists t h',
    MainFolder.Tensor_nested E 0 rows dtype
      (MainFolder.mkDevice MainFolder.CPU) h = Ok (t, h') /\
    MainFolder.dims (MainFolder.shape_ t)
    = [Z.of_nat (length rows); Z.of_nat cols] /\
    forall i j r v,
      rows !! i = Some r -> r !! j = Some v ->
      load E h' (MainFolder.data t) (i * cols + j) = Ok (stored_value E v).
Proof.
  intros Hne Hcols Hreg HE Hdtype Hmem Hcap.
  destruct rows as [|r0 rest]; [congruence |].
  assert (Hr0 : length r0 = cols) by now inversion Hreg.
  destruct (MainFolder_Tensor_nested_rows E r0 rest dtype h)
    as (l & h1 & Hblock & Hrun);
    [destruct r0; [cbn in Hr0; lia | discriminate] | assumption ..
    | now rewrite Hr0 | assumption |].
  rewrite Hr0 in Hblock, Hrun.
  pose proof (concat_length_rows _ _ Hreg) as Hlen.
  rewrite (memcpy_fresh h1 l E _ _ 1 Hblock) in Hrun
    by (rewrite Hlen, Nat2Z.inj_mul, HE; lia).
  destruct (Nat.ltb_spec
              (Z.to_nat (4 * (Z.of_nat (length (r0 :: rest)) * Z.of_nat cols)))
              (length (concat (r0 :: rest)) * Z.to_nat (sizeof E)))
    as [Hlt | _]; [rewrite Hlen, HE in Hlt; lia |].
  destruct (memcpy_whole_ok h1 l _ (vector_bytes E (concat (r0 :: rest))) Hblock)
    as [h2 Hcpy].
  { cbn [bytes]. rewrite length_replicate, vector_bytes_length, Hlen, HE. lia. }
  rewrite Hcpy in Hrun. cbn [mbind outcome_bind] in Hrun.
  eexists. exists h2. split; [exact Hrun |]. split; [reflexivity |].
  intros i j r v Hi Hj. cbn [MainFolder.data MainFolder.data_].
  apply (load_memcpy E h1 l _ (concat (r0 :: rest)) h2 _ v Hblock Hcpy).
  rewrite (concat_lookup_rows _ cols i j r Hreg Hi); [exact Hj |].
  rewrite <- (Forall_lookup_1 _ _ _ _ Hreg Hi). now apply lookup_lt_Some in Hj.
Qed.


Lemma flatten_nonempty n : forall vec : MainFolder.nvec n,
  prodZ (MainFolder.dims (MainFolder.infer_shape n vec)) <> 0 ->
  MainFolder.flatten n vec <> [].
Proof.
  induction n as [|m IH]; intros vec Hprod; [discriminate |].
  destruct vec as [|v0 rest]; [cbn in Hprod; lia |].
  change (MainFolder.flatten (S m) (v0 :: rest))
    with (MainFolder.flatten (S m) ((v0 :: rest) : list (MainFolder.nvec m))).
  rewrite (flatten_cons m (v0 :: rest)). cbn [map concat].
  cbn [MainFolder.infer_shape MainFolder.dims app prodZ] in Hprod.
  assert (Hv0 : MainFolder.flatten m v0 <> []) by (apply IH; nia).
  destruct (MainFolder.flatten m v0); [congruence | discriminate].
Qed.

(** X16.  For data nested three or more levels deep the constructor never
    returns a tensor: it sizes its [memcpy] with [sizeof] of the inner
    vector type instead of the scalar type, so whenever the allocation
    succeeds the copy reads past the end of the flattened data. *)
Theorem MainFolder_Tensor_nested_deep E n (vec : MainFolder.nvec (S (S (S n))))
    dtype device h :
  Z.of_nat (length (MainFolder.flatten (S (S (S n))) vec)) * sizeof_vector
  < size_modulus ->
  is_ok (MainFolder.Tensor_nested E (S n) vec dtype device h) = false /\
  (is_ok (MainFolder.allocate_memory
            (MainFolder.Tensor_init (MainFolder.infer_shape (S (S (S n))) vec)
               dtype device) h) = true ->
   MainFolder.Tensor_nested E (S n) vec dtype device h
   = Undefined "memcpy reads past the end of the source").
Proof.
  intros Hsmall.
  assert (Hrun : is_ok (MainFolder.allocate_memory
                          (MainFolder.Tensor_init
                             (MainFolder.infer_shape (S (S (S n))) vec)
                             dtype device) h) = true ->
                 MainFolder.Tensor_nested E (S n) vec dtype device h
                 = Undefined "memcpy reads past the end of the source").
  { unfold MainFolder.Tensor_nested.
    destruct (MainFolder.allocate_memory _ h) as [[t1 h1]| |] eqn:Halloc;
      try discriminate.
    intros _. cbn [mbind outcome_bind].
    apply MainFolder_allocate_inv in Halloc as (l & Htotal & Hnew & ->).
    apply new_shared_inv in Hnew as (_ & _ & Hblocks & _).
    cbn [MainFolder.data_].
    assert (Hflat : MainFolder.flatten (S (S (S n))) vec <> []).
    { apply flatten_nonempty. intros Hzero. apply Htotal.
      unfold MainFolder.compute_numel.
      cbn [MainFolder.Tensor_init MainFolder.shape_].
      destruct (MainFolder.dims _) as [|d ds] eqn:Ed; [reflexivity |].
      rewrite accumulate_size_wrap by (unfold is_size_t; now vm_compute).
      now rewrite Z.mul_1_l, Hzero. }
    set (flat := MainFolder.flatten (S (S (S n))) vec) in *.
    assert (Hlen : (0 < length flat)%nat)
      by (destruct flat; [congruence | cbn; lia]).
    unfold memcpy. rewrite Hblocks, lookup_insert_eq.
    rewrite vector_bytes_length.
    assert (Hn : size_mul (Z.of_nat (length flat)) sizeof_vector
                 = Z.of_nat (length flat) * sizeof_vector).
    { apply size_wrap_small. unfold is_size_t, sizeof_vector in *. lia. }
    rewrite Hn.
    destruct (Z.ltb_spec (Z.of_nat (length flat * Z.to_nat (sizeof E)))
                (Z.of_nat (length flat) * sizeof_vector)) as [_ | Hge];
      [reflexivity |].
    rewrite Nat2Z.inj_mul in Hge. unfold sizeof_vector in Hge.
    destruct E; cbn [sizeof] in Hge; lia. }
  split; [| exact Hrun].
  unfold MainFolder.Tensor_nested in *.
  destruct (MainFolder.allocate_memory _ h) as [[t1 h1]| |] eqn:Halloc;
    try reflexivity.
  now rewrite (Hrun eq_refl).
Qed.

Lemma MainFolder_Tensor_nested_matrix_witness :
  exists t h',
    MainFolder.Tensor_nested c_int 0 [[0; 1; 3]; [1; 2; 3]; [4; 5; 6]]
      MainFolder.Int32 (MainFolder.mkDevice MainFolder.CPU) (empty_heap 36)
    = Ok (t, h') /\
    MainFolder.dims (MainFolder.shape_ t) = [3; 3] /\
    load c_int h' (MainFolder.data t) (1 * 3 + 2) = Ok 3.
Proof.
  destruct (MainFolder_Tensor_nested_matrix c_int
              [[0; 1; 3]; [1; 2; 3]; [4; 5; 6]] 3 MainFolder.Int32
              (empty_heap 36))
    as (t & h' & Hrun & Hshape & Hload).
  - discriminate.
  - lia.
  - repeat constructor.
  - reflexivity.
  - now right.
  - vm_compute. discriminate.
  - reflexivity.
  - exists t, h'. split; [exact Hrun |]. split; [exact Hshape |].
    exact (Hload 1%nat 2%nat [1; 2; 3] 3 eq_refl eq_refl).
Defined.


Lemma MainFolder_Tensor_nested_deep_witness :
  MainFolder.Tensor_nested c_int 1 [[[1; 2]; [3; 4]]]
    MainFolder.Int32 (MainFolder.mkDevice MainFolder.CPU) (empty_heap 64)
  = Undefined "memcpy reads past the end of the source".
Proof.
  apply (MainFolder_Tensor_nested_deep c_int 0 [[[1; 2]; [3; 4]]]
           MainFolder.Int32 (MainFolder.mkDevice MainFolder.CPU)
           (empty_heap 64)).
  - reflexivity.
  - reflexivity.
Defined.


(** ** The lifetime of a buffer *)

(** X17.  A buffer lives exactly as long as a tensor refers to it: destroying
    a freshly constructed tensor frees its block and gives the free store
    back, so that the heap is as before the construction; destroying a copy
    while the original lives changes nothing in the heap the copy was made
    in. *)
Theorem Core_tensor_lifetime :
  (forall shape dtype device rg h t h',
      Core.Tensor_new shape dtype device rg h = Ok (t, h') ->
      Core.Tensor_destroy t h' = h) /\
  (forall (t : Core.Tensor) h l b,
      Core.data t = Some l ->
      blocks h !! l = Some b ->
      (0 < use_count b)%nat ->
      Core.Tensor_destroy (fst (Core.Tensor_copy t h))
                          (snd (Core.Tensor_copy t h)) = h).
Proof.
  split.
  - intros shape dtype device rg h t h' Hnew.
    destruct (Core_Tensor_new_inv _ _ _ _ _ _ _ Hnew)
      as (_ & _ & _ & sz & l & _ & _ & Halloc & ->).
    pose proof Halloc as Hshared.
    apply new_shared_inv in Hshared as (Hfit & Hfresh & Hblocks & Havail).
    unfold new_shared in Halloc.
    destruct (Z.ltb_spec (avail h) (size_mul (size_wrap (prodZ (Core.dims shape))) sz));
      [discriminate |].
    injection Halloc as Hl Hh'.
    unfold Core.Tensor_destroy, release. cbn [Core.data_].
    rewrite Hblocks, lookup_insert_eq. cbn [use_count bytes].
    rewrite delete_insert_eq, delete_id by exact Hfresh.
    rewrite length_replicate, Havail.
    destruct h as [bl av]. cbn [blocks avail] in *. f_equal.
    assert (0 <= size_mul (size_wrap (prodZ (Core.dims shape))) sz)
      by apply size_wrap_range.
    lia.
  - intros t h l b Hdata Hb Hlive.
    destruct (Core_copy_destroy t h l b Hdata Hb Hlive) as [Hblocks Havail].
    destruct (Core.Tensor_destroy _ _) as [bl av], h as [bl0 av0].
    cbn [blocks avail] in *. now subst.
Qed.

(** ** A byte count that wraps *)



Lemma Core_tensor_lifetime_witness :
  (exists t h',
      Core.Tensor_new (Core.mkShape [2; 3]) Core.Float32 Core.Device_default
        false (empty_heap 24) = Ok (t, h') /\
      Core.Tensor_destroy t h' = empty_heap 24 /\
      Core.Tensor_destroy (fst (Core.Tensor_copy t h'))
                          (snd (Core.Tensor_copy t h')) = h').
Proof.
  destruct Core_tensor_lifetime as [Hfree Hcopy].
  destruct (Core.Tensor_new (Core.mkShape [2; 3]) Core.Float32
              Core.Device_default false (empty_heap 24))
    as [[t h']| |] eqn:Hrun; [| vm_compute in Hrun; discriminate ..].
  exists t, h'. split; [reflexivity |]. split; [exact (Hfree _ _ _ _ _ _ _ Hrun) |].
  vm_compute in Hrun. injection Hrun as <- <-.
  apply (Hcopy _ _ 1%positive (Block (replicate 24 None) 1));
    [reflexivity | reflexivity | cbn; lia].
Defined.

